(** * Canvas: a shallow embedding of the drawing surface component

    The repository holds one React component, [Canvas], in two revisions:
    - [src/components/Canvas.tsx]: tools are classes ([RectTool], ...), kept
      in the [TOOLS] array and looked up through [TOOL_MAP];
    - the earlier JSX revision: [makeShapeElement] and [drawElement] branch
      on the tool / element tag directly.

    Both revisions are embedded below ([Module Tsx], [Module Jsx]) over a
    shared data model.

    Modelling conventions.
    - A pointer coordinate, and with it every field of an element, is an
      exact rational ([number] = [Qc], canonical fractions, so that equal
      numbers are Leibniz-equal); the builders of the shape tools compute
      on them without rounding.
    - The height of an uploaded image is computed as the source computes
      it, in binary64 ([Module B64], over the Standard Library's
      [SpecFloat] at precision 53 and maximal exponent 1024): the quotient
      and the product are each rounded to nearest even, and [Math.round]
      is taken of the rounded product. NaN and the infinities have no
      counterpart in [number]; [B64.to_number] turns them into 0.
    - The 2D rendering context is a recording context: its drawing-state
      attributes, its stack of saved states, its current path and the list of
      paint operations issued on the surface.
    - A handler returns [option State]; [None] stands for an uncaught
      [TypeError] (reading a property of [undefined] or [null]).
    - React state setters are applied at once, and the [useEffect] that
      redraws on a change of [elements] runs right after the setter. The
      updater passed to [setElements] copies the drag path when it runs;
      the array it copies is not written again after the release, so the
      copy is the path at the release.
    - Of [onImageUpload] the [img.onload] callback is embedded; decoding
      the file, the blob URL and [console.log] are not modelled. *)

From Stdlib Require Import QArith Qcanon Qround SpecFloat.
From Stdlib Require Qcabs.
From stdpp Require Import base option list strings countable gmap.

Local Open Scope Qc_scope.

(** ** Numbers *)

Definition number : Type := Qc.

Definition of_Z (z : Z) : number := Q2Qc (inject_Z z).

(** Binary64, the arithmetic of a JS [Number]. *)
Module B64.

Definition prec : Z := 53.
Definition emax : Z := 1024.

(** The binary64 nearest to an integer (exact below 2^53). *)
Definition of_Z (z : Z) : spec_float :=
  binary_normalize prec emax z 0 false.

(** [a / b] and [a * b], rounded to nearest even. *)
Definition div (a b : spec_float) : spec_float := SFdiv prec emax a b.
Definition mul (a b : spec_float) : spec_float := SFmul prec emax a b.

(** The binary64 of a rational [n / d] whose numerator and denominator are
    exactly representable; for an integer it is [of_Z]. *)
Definition of_number (q : number) : spec_float :=
  div (of_Z (Qnum q)) (of_Z (Z.pos (Qden q))).

(** The rational that a finite binary64 denotes. *)
Definition to_number (f : spec_float) : number :=
  match f with
  | S754_finite s m e =>
      Q2Qc (inject_Z (cond_Zopp s (Z.pos m)) * Qpower (2 # 1) e)
  | _ => Q2Qc 0
  end.

End B64.

#[global] Instance spec_float_eq_dec : EqDecision spec_float.
Proof. solve_decision. Defined.

Module Math.

(** [Math.min(a, b)] *)
Definition min (a b : number) : number :=
  if Qle_bool a b then a else b.

(** [Math.abs(a)] *)
Definition abs (a : number) : number := Qcabs.Qcabs a.

(** [Math.round(f)] on a binary64: the nearest integer, ties towards
    +infinity; NaN, the infinities and the zeros are returned as they are.
    For [f = (-1)^s m 2^e] with [e < 0] the integer is
    [floor((2 (-1)^s m + 2^(-e)) / 2^(1 - e))]. A result that is zero is
    given as +0 (for [f] in [-0.5, 0) the source has -0, the same number
    to [B64.to_number]). *)
Definition round (f : spec_float) : spec_float :=
  match f with
  | S754_finite s m e =>
      let sm := cond_Zopp s (Z.pos m) in
      B64.of_Z (if (0 <=? e)%Z then (sm * 2 ^ e)%Z
                else ((2 * sm + 2 ^ (- e)) / (2 * 2 ^ (- e)))%Z)
  | _ => f
  end.

End Math.

(** ** Element types *)

Record Point : Type := { x : number; y : number }.

(** The decoded raster behind an [image] element; [width] and [height] are
    the intrinsic dimensions (DOM [unsigned long]). *)
Record HTMLImageElement : Type :=
  { src : string; width : N; height : N }.

Inductive CanvasElement : Type :=
| RectEl (x y w h : number)
| CircleEl (cx cy rx ry : number)
| LineEl (x1 y1 x2 y2 : number)
| DrawEl (path : list Point)
| ImageEl (img : HTMLImageElement) (x y w h : number).

Inductive ToolId : Type := rect | circle | line | draw | image.

#[global] Instance ToolId_eq_dec : EqDecision ToolId.
Proof. solve_decision. Defined.

Definition ToolId_to_nat (t : ToolId) : nat :=
  match t with rect => 0 | circle => 1 | line => 2 | draw => 3 | image => 4 end.

Definition ToolId_of_nat (n : nat) : option ToolId :=
  match n with
  | 0 => Some rect | 1 => Some circle | 2 => Some line
  | 3 => Some draw | 4 => Some image | _ => None
  end%nat.

#[global] Instance ToolId_countable : Countable ToolId.
Proof.
  apply (inj_countable ToolId_to_nat ToolId_of_nat).
  by intros [].
Defined.

(** The [type] discriminant of an element. *)
Definition type (el : CanvasElement) : ToolId :=
  match el with
  | RectEl _ _ _ _ => rect
  | CircleEl _ _ _ _ => circle
  | LineEl _ _ _ _ => line
  | DrawEl _ => draw
  | ImageEl _ _ _ _ _ => image
  end.

(** ** The 2D rendering context *)

(** The attributes of the drawing state that the component sets. *)
Record DrawingState : Type :=
  { strokeStyle : string; lineWidth : number; fillStyle : string }.

Inductive PathSeg : Type :=
| SubRect (x y w h : number)
| SubEllipse (cx cy rx ry : number)
| SubMoveTo (x y : number)
| SubLineTo (x y : number).

(** What has been issued on the surface, oldest first. *)
Inductive Paint : Type :=
| Cleared (x y w h : number)
| Filled (path : list PathSeg) (style : string)
| Stroked (path : list PathSeg) (style : string) (width : number)
| Blitted (img : HTMLImageElement) (x y w h : number).

Record CanvasRenderingContext2D : Type :=
  { state : DrawingState;
    saved : list DrawingState;
    currentPath : list PathSeg;
    surface : list Paint }.

Module Ctx.

Definition fresh : CanvasRenderingContext2D :=
  {| state := {| strokeStyle := "#000000"; lineWidth := of_Z 1;
                 fillStyle := "#000000" |};
     saved := []; currentPath := []; surface := [] |}.

Definition with_state (c : CanvasRenderingContext2D) (st : DrawingState) :=
  {| state := st; saved := saved c;
     currentPath := currentPath c; surface := surface c |}.

Definition with_path (c : CanvasRenderingContext2D) (p : list PathSeg) :=
  {| state := state c; saved := saved c;
     currentPath := p; surface := surface c |}.

Definition paint (c : CanvasRenderingContext2D) (p : Paint) :=
  {| state := state c; saved := saved c;
     currentPath := currentPath c; surface := surface c ++ [p] |}.

(** [ctx.save()]: push the drawing state. *)
Definition save (c : CanvasRenderingContext2D) :=
  {| state := state c; saved := state c :: saved c;
     currentPath := currentPath c; surface := surface c |}.

(** [ctx.restore()]: pop the drawing state; nothing on an empty stack. *)
Definition restore (c : CanvasRenderingContext2D) :=
  match saved c with
  | [] => c
  | st :: rest =>
      {| state := st; saved := rest;
         currentPath := currentPath c; surface := surface c |}
  end.

Definition set_strokeStyle (c : CanvasRenderingContext2D) (v : string) :=
  with_state c {| strokeStyle := v; lineWidth := lineWidth (state c);
                  fillStyle := fillStyle (state c) |}.

Definition set_lineWidth (c : CanvasRenderingContext2D) (v : number) :=
  with_state c {| strokeStyle := strokeStyle (state c); lineWidth := v;
                  fillStyle := fillStyle (state c) |}.

Definition set_fillStyle (c : CanvasRenderingContext2D) (v : string) :=
  with_state c {| strokeStyle := strokeStyle (state c);
                  lineWidth := lineWidth (state c); fillStyle := v |}.

Definition beginPath (c : CanvasRenderingContext2D) := with_path c [].

Definition rect (c : CanvasRenderingContext2D) (x y w h : number) :=
  with_path c (currentPath c ++ [SubRect x y w h]).

(** [ctx.ellipse(cx, cy, rx, ry, 0, 0, Math.PI * 2)]: the only call
    shape in the source, a full unrotated ellipse. *)
Definition ellipse (c : CanvasRenderingContext2D) (cx cy rx ry : number) :=
  with_path c (currentPath c ++ [SubEllipse cx cy rx ry]).

Definition moveTo (c : CanvasRenderingContext2D) (x y : number) :=
  with_path c (currentPath c ++ [SubMoveTo x y]).

Definition lineTo (c : CanvasRenderingContext2D) (x y : number) :=
  with_path c (currentPath c ++ [SubLineTo x y]).

Definition fill (c : CanvasRenderingContext2D) :=
  paint c (Filled (currentPath c) (fillStyle (state c))).

Definition stroke (c : CanvasRenderingContext2D) :=
  paint c (Stroked (currentPath c) (strokeStyle (state c))
                   (lineWidth (state c))).

Definition drawImage (c : CanvasRenderingContext2D)
    (img : HTMLImageElement) (x y w h : number) :=
  paint c (Blitted img x y w h).

Definition clearRect (c : CanvasRenderingContext2D) (x y w h : number) :=
  paint c (Cleared x y w h).

End Ctx.

(** ** The canvas element and pointer events *)

(** [<canvas width={800} height={600}>] *)
Definition canvas_width : number := of_Z 800.
Definition canvas_height : number := of_Z 600.

(** The fields of [getBoundingClientRect()] and of a mouse event that
    [getPos] reads. *)
Record DOMRect : Type := { left : number; top : number }.
Record MouseEvent : Type := { clientX : number; clientY : number }.

Definition getPos (canvasRef : DOMRect) (e : MouseEvent) : Point :=
  {| x := clientX e - left canvasRef; y := clientY e - top canvasRef |}.

(** ** Component state

    [elements] and [tool] are the two [useState] cells ([elementsRef] and
    [toolRef] mirror them on every render), [drawingRef] is the drag record
    and [ctx] the 2D context of the canvas. *)

Record Drawing : Type :=
  { active : bool; start : option Point; path : list Point }.

Record State : Type :=
  { elements : list CanvasElement;
    tool : ToolId;
    drawingRef : Drawing;
    ctx : CanvasRenderingContext2D }.

Definition with_elements (s : State) (els : list CanvasElement) : State :=
  {| elements := els; tool := tool s;
     drawingRef := drawingRef s; ctx := ctx s |}.

Definition with_tool (s : State) (t : ToolId) : State :=
  {| elements := elements s; tool := t;
     drawingRef := drawingRef s; ctx := ctx s |}.

Definition with_drawingRef (s : State) (d : Drawing) : State :=
  {| elements := elements s; tool := tool s;
     drawingRef := d; ctx := ctx s |}.

Definition with_ctx (s : State) (c : CanvasRenderingContext2D) : State :=
  {| elements := elements s; tool := tool s;
     drawingRef := drawingRef s; ctx := c |}.

(** [drawingRef.current.active = v] *)
Definition set_active (d : Drawing) (v : bool) : Drawing :=
  {| active := v; start := start d; path := path d |}.

(** [path.push(pos)] on the array held by [drawingRef.current]. *)
Definition push (d : Drawing) (pos : Point) : Drawing :=
  {| active := active d; start := start d; path := path d ++ [pos] |}.

(** What the user and the browser can do to the component. [ToolClick i] is
    a click on the [i]-th toolbar button, [ImageLoad] the [onload] callback
    of an uploaded image. *)
Inductive Event : Type :=
| MouseDown (canvasRef : DOMRect) (e : MouseEvent)
| MouseMove (canvasRef : DOMRect) (e : MouseEvent)
| MouseUp (canvasRef : DOMRect) (e : MouseEvent)
| MouseLeave (canvasRef : DOMRect) (e : MouseEvent)
| ToolClick (i : nat)
| ClearClick
| ImageLoad (img : HTMLImageElement).

(** The initial values of [useState] and [useRef], over a new context. *)
Definition initial : State :=
  {| elements := []; tool := rect;
     drawingRef := {| active := false; start := None; path := [] |};
     ctx := Ctx.fresh |}.

(** The [onMouseMove] events of a drag, in order. *)
Definition moves (ms : list (DOMRect * MouseEvent)) : list Event :=
  (λ m, MouseMove m.1 m.2) <$> ms.

(** The canvas positions of a sequence of pointer events. *)
Definition positions (ms : list (DOMRect * MouseEvent)) : list Point :=
  (λ m, getPos m.1 m.2) <$> ms.

(** [xs.forEach(x => f(acc, x))] for a step that may throw. *)
Fixpoint forEach {A B : Type} (f : A → B → option A) (acc : A) (xs : list B)
    : option A :=
  match xs with
  | [] => Some acc
  | b :: rest => a ← f acc b; forEach f a rest
  end.

(** ** Canvas.tsx *)

(** [abstract class CanvasTool<E>]. The registry holds every tool at type
    [CanvasTool<CanvasElement>] through a cast, so [draw] takes any element;
    it answers [None] on a variant it was not written for (its field reads
    would be [undefined]). [makeElement] answers [None] for [undefined]. *)
Module CanvasTool.
Record t : Type :=
  { id : ToolId;
    label : string;
    cursor : string;
    draw : CanvasRenderingContext2D → CanvasElement
           → option CanvasRenderingContext2D;
    makeElement : Point → Point → option CanvasElement }.

(** The base-class [makeElement], inherited by the freehand and image
    tools. *)
Definition default_makeElement (_start _end : Point)
    : option CanvasElement := None.
End CanvasTool.

Module Tsx.

Definition RectTool : CanvasTool.t :=
  {| CanvasTool.id := rect;
     CanvasTool.label := "rect";
     CanvasTool.cursor := "crosshair";
     CanvasTool.draw := λ ctx el,
       match el with
       | RectEl ex ey ew eh =>
           let ctx := Ctx.beginPath ctx in
           let ctx := Ctx.rect ctx ex ey ew eh in
           let ctx := Ctx.fill ctx in
           Some (Ctx.stroke ctx)
       | _ => None
       end;
     CanvasTool.makeElement := λ start end_,
       Some (RectEl (Math.min (x start) (x end_))
                    (Math.min (y start) (y end_))
                    (Math.abs (x end_ - x start))
                    (Math.abs (y end_ - y start))) |}.

Definition CircleTool : CanvasTool.t :=
  {| CanvasTool.id := circle;
     CanvasTool.label := "circle";
     CanvasTool.cursor := "crosshair";
     CanvasTool.draw := λ ctx el,
       match el with
       | CircleEl ecx ecy erx ery =>
           let ctx := Ctx.beginPath ctx in
           let ctx := Ctx.ellipse ctx ecx ecy erx ery in
           let ctx := Ctx.fill ctx in
           Some (Ctx.stroke ctx)
       | _ => None
       end;
     CanvasTool.makeElement := λ start end_,
       Some (CircleEl ((x start + x end_) / of_Z 2)
                      ((y start + y end_) / of_Z 2)
                      (Math.abs (x end_ - x start) / of_Z 2)
                      (Math.abs (y end_ - y start) / of_Z 2)) |}.

Definition LineTool : CanvasTool.t :=
  {| CanvasTool.id := line;
     CanvasTool.label := "line";
     CanvasTool.cursor := "crosshair";
     CanvasTool.draw := λ ctx el,
       match el with
       | LineEl ex1 ey1 ex2 ey2 =>
           let ctx := Ctx.beginPath ctx in
           let ctx := Ctx.moveTo ctx ex1 ey1 in
           let ctx := Ctx.lineTo ctx ex2 ey2 in
           Some (Ctx.stroke ctx)
       | _ => None
       end;
     CanvasTool.makeElement := λ start end_,
       Some (LineEl (x start) (y start) (x end_) (y end_)) |}.

Definition FreehandTool : CanvasTool.t :=
  {| CanvasTool.id := draw;
     CanvasTool.label := "draw";
     CanvasTool.cursor := "crosshair";
     CanvasTool.draw := λ ctx el,
       match el with
       | DrawEl epath =>
           if (length epath <? 2)%nat then Some ctx
           else
             match epath with
             | [] => Some ctx
             | p0 :: rest =>
                 let ctx := Ctx.beginPath ctx in
                 let ctx := Ctx.moveTo ctx (x p0) (y p0) in
                 let ctx :=
                   foldl (λ c p, Ctx.lineTo c (x p) (y p)) ctx rest in
                 Some (Ctx.stroke ctx)
             end
       | _ => None
       end;
     CanvasTool.makeElement := CanvasTool.default_makeElement |}.

Definition ImageTool : CanvasTool.t :=
  {| CanvasTool.id := image;
     CanvasTool.label := "image";
     CanvasTool.cursor := "default";
     CanvasTool.draw := λ ctx el,
       match el with
       | ImageEl eimg ex ey ew eh =>
           Some (Ctx.drawImage ctx eimg ex ey ew eh)
       | _ => None
       end;
     CanvasTool.makeElement := CanvasTool.default_makeElement |}.

(** Toolbar tools, without [ImageTool]: images come from file upload. *)
Definition TOOLS : list CanvasTool.t :=
  [RectTool; CircleTool; LineTool; FreehandTool].

(** [Object.fromEntries]: entries are written in order, a later key
    overwrites an earlier one. *)
Definition fromEntries (entries : list (ToolId * CanvasTool.t))
    : gmap ToolId CanvasTool.t :=
  foldl (λ m kv, <[kv.1 := kv.2]> m) ∅ entries.

Definition TOOL_MAP : gmap ToolId CanvasTool.t :=
  fromEntries ((λ t, (CanvasTool.id t, t)) <$> TOOLS).

Definition drawElement (ctx : CanvasRenderingContext2D)
    (el : CanvasElement) : option CanvasRenderingContext2D :=
  let ctx := Ctx.save ctx in
  let ctx := Ctx.set_strokeStyle ctx "#1a1a2e" in
  let ctx := Ctx.set_lineWidth ctx (of_Z 2) in
  let ctx := Ctx.set_fillStyle ctx "rgba(100, 149, 237, 0.25)" in
  ctx ← match el with
        | ImageEl eimg ex ey ew eh =>
            Some (Ctx.drawImage ctx eimg ex ey ew eh)
        | _ =>
            t ← TOOL_MAP !! type el;
            CanvasTool.draw t ctx el
        end;
  Some (Ctx.restore ctx).

Definition redraw (draft : option CanvasElement) (s : State)
    : option State :=
  let c := Ctx.clearRect (ctx s) (of_Z 0) (of_Z 0)
                         canvas_width canvas_height in
  c ← forEach drawElement c (elements s);
  c ← match draft with
      | Some d => drawElement c d
      | None => Some c
      end;
  Some (with_ctx s c).

(** [setElements(f)], followed by the render it schedules and the effect
    [useEffect(() => { redraw() }, [elements])]. *)
Definition setElements (f : list CanvasElement → list CanvasElement)
    (s : State) : option State :=
  redraw None (with_elements s (f (elements s))).

(** [setTool(t)]: [elements] keeps its identity, the effect does not run. *)
Definition setTool (t : ToolId) (s : State) : option State :=
  Some (with_tool s t).

Definition onMouseDown (canvasRef : DOMRect) (e : MouseEvent) (s : State)
    : option State :=
  let pos := getPos canvasRef e in
  Some (with_drawingRef s
          {| active := true; start := Some pos; path := [pos] |}).

Definition onMouseMove (canvasRef : DOMRect) (e : MouseEvent) (s : State)
    : option State :=
  if negb (active (drawingRef s)) then Some s
  else
    let pos := getPos canvasRef e in
    let t := tool s in
    if decide (t = draw) then
      let s := with_drawingRef s (push (drawingRef s) pos) in
      redraw (Some (DrawEl (path (drawingRef s)))) s
    else
      match start (drawingRef s) with
      | Some start' =>
          tl ← TOOL_MAP !! t;
          redraw (CanvasTool.makeElement tl start' pos) s
      | None => Some s
      end.

Definition onMouseUp (canvasRef : DOMRect) (e : MouseEvent) (s : State)
    : option State :=
  if negb (active (drawingRef s)) then Some s
  else
    let pos := getPos canvasRef e in
    let t := tool s in
    let s := with_drawingRef s (set_active (drawingRef s) false) in
    if decide (t = draw) then
      let s := with_drawingRef s (push (drawingRef s) pos) in
      let path' := path (drawingRef s) in
      setElements (λ prev, prev ++ [DrawEl path']) s
    else
      match start (drawingRef s) with
      | Some start' =>
          tl ← TOOL_MAP !! t;
          match CanvasTool.makeElement tl start' pos with
          | Some el => setElements (λ prev, prev ++ [el]) s
          | None => Some s
          end
      | None => Some s
      end.

(** The [img.onload] callback installed by [onImageUpload]. *)
Definition onload (img : HTMLImageElement) (s : State) : option State :=
  let w := Math.min (of_Z (Z.of_N (width img))) (of_Z 400) in
  let h := B64.to_number
             (Math.round
                (B64.mul (B64.div (B64.of_Z (Z.of_N (height img)))
                                  (B64.of_Z (Z.of_N (width img))))
                         (B64.of_number w))) in
  setElements (λ prev, prev ++ [ImageEl img (of_Z 50) (of_Z 50) w h]) s.

(** The [onClick] of the clear button. *)
Definition clear (s : State) : option State :=
  setElements (λ _, []) s.

(** The [onClick] of the [i]-th button of [TOOLS.map(...)]. *)
Definition onToolClick (i : nat) (s : State) : option State :=
  match TOOLS !! i with
  | Some t => setTool (CanvasTool.id t) s
  | None => Some s
  end.

Definition handle (ev : Event) (s : State) : option State :=
  match ev with
  | MouseDown r e => onMouseDown r e s
  | MouseMove r e => onMouseMove r e s
  | MouseUp r e => onMouseUp r e s
  | MouseLeave r e => onMouseUp r e s
  | ToolClick i => onToolClick i s
  | ClearClick => clear s
  | ImageLoad img => onload img s
  end.

Fixpoint run (evs : list Event) (s : State) : option State :=
  match evs with
  | [] => Some s
  | ev :: rest => s' ← handle ev s; run rest s'
  end.

(** The component after mount: initial [useState] / [useRef] values and
    the first run of the redraw effect. *)
Definition mount : option State := redraw None initial.

Definition reachable (s : State) : Prop :=
  ∃ evs, mount ≫= run evs = Some s.

End Tsx.

(** ** The JSX revision *)

Module Jsx.

Definition TOOLS : list ToolId := [rect; circle; line; draw].

(** The body of [drawElement] between the style assignments and the
    final [ctx.restore()]: [inl] is the early [return] of the freehand
    branch, [inr] is falling out of the [if]/[else if] chain. *)
Definition drawElement_body (ctx : CanvasRenderingContext2D)
    (el : CanvasElement)
    : CanvasRenderingContext2D + CanvasRenderingContext2D :=
  match el with
  | RectEl ex ey ew eh =>
      let ctx := Ctx.beginPath ctx in
      let ctx := Ctx.rect ctx ex ey ew eh in
      let ctx := Ctx.fill ctx in
      inr (Ctx.stroke ctx)
  | CircleEl ecx ecy erx ery =>
      let ctx := Ctx.beginPath ctx in
      let ctx := Ctx.ellipse ctx ecx ecy erx ery in
      let ctx := Ctx.fill ctx in
      inr (Ctx.stroke ctx)
  | LineEl ex1 ey1 ex2 ey2 =>
      let ctx := Ctx.beginPath ctx in
      let ctx := Ctx.moveTo ctx ex1 ey1 in
      let ctx := Ctx.lineTo ctx ex2 ey2 in
      inr (Ctx.stroke ctx)
  | DrawEl epath =>
      if (length epath <? 2)%nat then inl ctx
      else
        match epath with
        | [] => inl ctx
        | p0 :: rest =>
            let ctx := Ctx.beginPath ctx in
            let ctx := Ctx.moveTo ctx (x p0) (y p0) in
            let ctx := foldl (λ c p, Ctx.lineTo c (x p) (y p)) ctx rest in
            inr (Ctx.stroke ctx)
        end
  | ImageEl eimg ex ey ew eh =>
      inr (Ctx.drawImage ctx eimg ex ey ew eh)
  end.

Definition drawElement (ctx : CanvasRenderingContext2D)
    (el : CanvasElement) : CanvasRenderingContext2D :=
  let ctx := Ctx.save ctx in
  let ctx := Ctx.set_strokeStyle ctx "#1a1a2e" in
  let ctx := Ctx.set_lineWidth ctx (of_Z 2) in
  let ctx := Ctx.set_fillStyle ctx "rgba(100, 149, 237, 0.25)" in
  match drawElement_body ctx el with
  | inl ctx => ctx
  | inr ctx => Ctx.restore ctx
  end.

(** [start] is what [drawingRef.current.start] holds, [null] included:
    the outer [None] is the [TypeError] of [start.x] on [null], the inner
    one the [undefined] of falling off the end of the function. *)
Definition makeShapeElement (tool : ToolId) (start : option Point)
    (end_ : Point) : option (option CanvasElement) :=
  if decide (tool = rect) then
    start ← start;
    Some (Some (RectEl (Math.min (x start) (x end_))
                       (Math.min (y start) (y end_))
                       (Math.abs (x end_ - x start))
                       (Math.abs (y end_ - y start))))
  else if decide (tool = circle) then
    start ← start;
    Some (Some (CircleEl ((x start + x end_) / of_Z 2)
                         ((y start + y end_) / of_Z 2)
                         (Math.abs (x end_ - x start) / of_Z 2)
                         (Math.abs (y end_ - y start) / of_Z 2)))
  else if decide (tool = line) then
    start ← start;
    Some (Some (LineEl (x start) (y start) (x end_) (y end_)))
  else Some None.

Definition redraw (draft : option CanvasElement) (s : State) : State :=
  let c := Ctx.clearRect (ctx s) (of_Z 0) (of_Z 0)
                         canvas_width canvas_height in
  let c := foldl drawElement c (elements s) in
  let c := match draft with
           | Some d => drawElement c d
           | None => c
           end in
  with_ctx s c.

Definition setElements (f : list CanvasElement → list CanvasElement)
    (s : State) : State :=
  redraw None (with_elements s (f (elements s))).

Definition setTool (t : ToolId) (s : State) : State := with_tool s t.

Definition onMouseDown (canvasRef : DOMRect) (e : MouseEvent) (s : State)
    : option State :=
  let pos := getPos canvasRef e in
  Some (with_drawingRef s
          {| active := true; start := Some pos; path := [pos] |}).

Definition onMouseMove (canvasRef : DOMRect) (e : MouseEvent) (s : State)
    : option State :=
  if negb (active (drawingRef s)) then Some s
  else
    let pos := getPos canvasRef e in
    let t := tool s in
    if decide (t = draw) then
      let s := with_drawingRef s (push (drawingRef s) pos) in
      Some (redraw (Some (DrawEl (path (drawingRef s)))) s)
    else
      draft ← makeShapeElement t (start (drawingRef s)) pos;
      Some (redraw draft s).

Definition onMouseUp (canvasRef : DOMRect) (e : MouseEvent) (s : State)
    : option State :=
  if negb (active (drawingRef s)) then Some s
  else
    let pos := getPos canvasRef e in
    let t := tool s in
    let s := with_drawingRef s (set_active (drawingRef s) false) in
    if decide (t = draw) then
      let s := with_drawingRef s (push (drawingRef s) pos) in
      let path' := path (drawingRef s) in
      Some (setElements (λ prev, prev ++ [DrawEl path']) s)
    else
      el ← makeShapeElement t (start (drawingRef s)) pos;
      match el with
      | Some el => Some (setElements (λ prev, prev ++ [el]) s)
      | None => Some s
      end.

Definition onload (img : HTMLImageElement) (s : State) : option State :=
  let w := Math.min (of_Z (Z.of_N (width img))) (of_Z 400) in
  let h := B64.to_number
             (Math.round
                (B64.mul (B64.div (B64.of_Z (Z.of_N (height img)))
                                  (B64.of_Z (Z.of_N (width img))))
                         (B64.of_number w))) in
  Some (setElements
          (λ prev, prev ++ [ImageEl img (of_Z 50) (of_Z 50) w h]) s).

Definition clear (s : State) : option State :=
  Some (setElements (λ _, []) s).

Definition onToolClick (i : nat) (s : State) : option State :=
  match TOOLS !! i with
  | Some t => Some (setTool t s)
  | None => Some s
  end.

Definition handle (ev : Event) (s : State) : option State :=
  match ev with
  | MouseDown r e => onMouseDown r e s
  | MouseMove r e => onMouseMove r e s
  | MouseUp r e => onMouseUp r e s
  | MouseLeave r e => onMouseUp r e s
  | ToolClick i => onToolClick i s
  | ClearClick => clear s
  | ImageLoad img => onload img s
  end.

Fixpoint run (evs : list Event) (s : State) : option State :=
  match evs with
  | [] => Some s
  | ev :: rest => s' ← handle ev s; run rest s'
  end.

Definition mount : State := redraw None initial.

Definition reachable (s : State) : Prop :=
  ∃ evs, run evs mount = Some s.

End Jsx.

(** ** Auxiliary definitions for the statements *)

Definition pt (a b : Z) : Point := {| x := of_Z a; y := of_Z b |}.
Definition origin : DOMRect := {| left := of_Z 0; top := of_Z 0 |}.
Definition at_ (a b : Z) : MouseEvent :=
  {| clientX := of_Z a; clientY := of_Z b |}.

(** The three attributes [drawElement] assigns before drawing. *)
Definition element_style : DrawingState :=
  {| strokeStyle := "#1a1a2e"; lineWidth := of_Z 2;
     fillStyle := "rgba(100, 149, 237, 0.25)" |}.

(** A line element with its two endpoints exchanged. *)
Definition swap_endpoints (el : CanvasElement) : CanvasElement :=
  match el with
  | LineEl ex1 ey1 ex2 ey2 => LineEl ex2 ey2 ex1 ey1
  | _ => el
  end.

(** ** Invariants of the controller *)

(** Every freehand element of a document has at least two points. *)
Definition long_strokes (els : list CanvasElement) : Prop :=
  ∀ ps, DrawEl ps ∈ els → (2 ≤ length ps)%nat.

(** An active drag has its start point and a non-empty path. *)
Definition drag_seeded (d : Drawing) : Prop :=
  active d = true → is_Some (start d) ∧ path d ≠ [].

Definition inv (s : State) : Prop :=
  tool s ≠ image ∧ drag_seeded (drawingRef s) ∧ long_strokes (elements s).

(** The events of one drag: press, moves, release. *)
Definition drag (r0 : DOMRect) (e0 : MouseEvent)
    (ms : list (DOMRect * MouseEvent)) (r1 : DOMRect) (e1 : MouseEvent)
    : list Event :=
  MouseDown r0 e0 :: moves ms ++ [MouseUp r1 e1].

(** ** Rendering, observed *)

(** What drawing [el] paints on an untouched surface. *)
Definition painted (el : CanvasElement) : list Paint :=
  surface (Jsx.drawElement Ctx.fresh el).

(** The sub-path that [ctx.lineTo(p.x, p.y)] adds. *)
Definition line_to (p : Point) : PathSeg := SubLineTo (x p) (y p).

(** Whether a paint operation is [clearRect] over the whole canvas. *)
Definition clears_canvas (p : Paint) : bool :=
  match p with
  | Cleared cx cy cw ch =>
      bool_decide (cx = of_Z 0 ∧ cy = of_Z 0
                   ∧ cw = canvas_width ∧ ch = canvas_height)
  | _ => false
  end.

(** What is on the canvas: the operations issued since the canvas was
    last cleared as a whole ([acc] holds those met so far). *)
Fixpoint visible_from (acc log : list Paint) : list Paint :=
  match log with
  | [] => acc
  | p :: rest =>
      if clears_canvas p then visible_from [] rest
      else visible_from (acc ++ [p]) rest
  end.

Definition visible (c : CanvasRenderingContext2D) : list Paint :=
  visible_from [] (surface c).

(** ** What [Canvas] renders from its state *)

(** Canvas.tsx: [const activeTool = TOOL_MAP[tool]] and the [cursor] style
    of the canvas, [activeTool.cursor]; [None] is the [TypeError] of reading
    [cursor] of [undefined]. *)
Definition canvas_cursor (s : State) : option string :=
  activeTool ← Tsx.TOOL_MAP !! tool s;
  Some (CanvasTool.cursor activeTool).

(** The toolbar of Canvas.tsx: for each button of [TOOLS.map(...)] its
    label and whether it carries [styles.active]. *)
Definition tsx_toolbar (s : State) : list (string * bool) :=
  (λ t, (CanvasTool.label t, bool_decide (tool s = CanvasTool.id t)))
    <$> Tsx.TOOLS.

(** The toolbar of the JSX revision. *)
Definition jsx_toolbar (s : State) : list (ToolId * bool) :=
  (λ t, (t, bool_decide (tool s = t))) <$> Jsx.TOOLS.

(** An element that the early [return] of the freehand branch skips. *)
Definition short_stroke (el : CanvasElement) : Prop :=
  ∃ ps, el = DrawEl ps ∧ (length ps < 2)%nat.

(** The canvas shows the document, in order, with at most one draft on
    top. *)
Definition shows_document (s : State) : Prop :=
  ∃ draft, visible (ctx s)
           = concat (painted <$> elements s) ++ from_option painted [] draft.

(** * Laws of the number model *)

Section Numbers.

Implicit Types a b : number.

Lemma min_le a b : (a <= b)%Qc → Math.min a b = a.
Proof.
  intros H. unfold Math.min.
  destruct (Qle_bool a b) eqn:E; [done |].
  apply Qle_bool_iff in H. congruence.
Qed.

Lemma min_ge a b : (b <= a)%Qc → Math.min a b = b.
Proof.
  intros H. unfold Math.min.
  destruct (Qle_bool a b) eqn:E; [| done].
  apply Qle_bool_iff in E. by apply Qcle_antisym.
Qed.

Lemma min_comm a b : Math.min a b = Math.min b a.
Proof.
  destruct (Qclt_le_dec a b) as [H | H].
  - apply Qclt_le_weak in H. by rewrite min_le, min_ge.
  - by rewrite min_ge, min_le.
Qed.

Lemma min_same a : Math.min a a = a.
Proof. apply min_le, Qcle_refl. Qed.

Lemma abs_sub_comm a b : Math.abs (a - b) = Math.abs (b - a).
Proof. apply Qcabs.Qcabs_Qcminus. Qed.

Lemma abs_sub_same a : Math.abs (a - a) = of_Z 0.
Proof.
  replace (a - a) with (Q2Qc 0) by ring.
  by apply Qc_is_canon.
Qed.



End Numbers.

(** * Rendering *)

Section Rendering.

Implicit Types c : CanvasRenderingContext2D.

Lemma foldl_lineTo_frame (ps : list Point) c :
  let c' := foldl (λ c p, Ctx.lineTo c (x p) (y p)) c ps in
  state c' = state c ∧ saved c' = saved c.
Proof.
  revert c. induction ps as [| p ps IH]; intros c; [done |].
  simpl. destruct (IH (Ctx.lineTo c (x p) (y p))) as [-> ->]. done.
Qed.

Lemma restore_after c (st : DrawingState) (stack : list DrawingState) :
  saved c = st :: stack →
  state (Ctx.restore c) = st ∧ saved (Ctx.restore c) = stack.
Proof. intros H. unfold Ctx.restore. by rewrite H. Qed.

Lemma tool_map_lookup (t : ToolId) :
  Tsx.TOOL_MAP !! t =
    match t with
    | rect => Some Tsx.RectTool
    | circle => Some Tsx.CircleTool
    | line => Some Tsx.LineTool
    | draw => Some Tsx.FreehandTool
    | image => None
    end.
Proof. by destruct t. Qed.

(** Canvas.tsx: every element is drawn without a failed lookup or an
    ill-typed [draw] call, and the drawing state and the stack of saved
    states come back as they were. *)
Lemma tsx_drawElement_restores c (el : CanvasElement) :
  ∃ c', Tsx.drawElement c el = Some c'
        ∧ state c' = state c ∧ saved c' = saved c.
Proof.
  unfold Tsx.drawElement.
  destruct el as [? ? ? ?|? ? ? ?|? ? ? ?|ps|? ? ? ? ?];
    try rewrite tool_map_lookup; cbn [type mbind option_bind];
    try (eexists; split; [reflexivity | done]).
  cbn [CanvasTool.draw Tsx.FreehandTool].
  destruct (length ps <? 2)%nat;
    [eexists; split; [reflexivity | done] |].
  destruct ps as [| p0 rest];
    [eexists; split; [reflexivity | done] |].
  eexists; split; [reflexivity |].
  apply restore_after. cbn [Ctx.stroke Ctx.paint saved].
  by rewrite (proj2 (foldl_lineTo_frame rest _)).
Qed.

(** The JSX revision restores as well, except on the early return. *)
Lemma jsx_drawElement_restores c (el : CanvasElement) :
  (∀ ps, el = DrawEl ps → (2 ≤ length ps)%nat) →
  state (Jsx.drawElement c el) = state c
  ∧ saved (Jsx.drawElement c el) = saved c.
Proof.
  intros Hlen. unfold Jsx.drawElement.
  destruct el as [? ? ? ?|? ? ? ?|? ? ? ?|ps|? ? ? ? ?]; try done.
  specialize (Hlen ps eq_refl). cbn [Jsx.drawElement_body].
  destruct (Nat.ltb_spec (length ps) 2) as [? | _]; [lia |].
  destruct ps as [| p0 rest]; [simpl in Hlen; lia |].
  apply restore_after. cbn [Ctx.stroke Ctx.paint saved].
  by rewrite (proj2 (foldl_lineTo_frame rest _)).
Qed.

End Rendering.

(** * The controller of Canvas.tsx *)

(** Close a step that appends [d] to the document. *)
Ltac commits d :=
  simpl in *;
  match goal with
  | H : Some _ = Some _ |- _ =>
      injection H as <-; eexists _, d; simpl;
      rewrite ?app_nil_r; split_and!; reflexivity
  end.

Section TsxController.

Implicit Types (s : State) (r : DOMRect) (e : MouseEvent).

Lemma tsx_forEach_drawElement (els : list CanvasElement)
    (c : CanvasRenderingContext2D) :
  is_Some (forEach Tsx.drawElement c els).
Proof.
  revert c. induction els as [| el els IH]; intros c; [by eexists |].
  destruct (tsx_drawElement_restores c el) as (c' & Hc' & _).
  simpl. rewrite Hc'. apply IH.
Qed.

Lemma tsx_redraw_Some (draft : option CanvasElement) s :
  ∃ c, Tsx.redraw draft s = Some (with_ctx s c).
Proof.
  unfold Tsx.redraw.
  destruct (tsx_forEach_drawElement (elements s)
              (Ctx.clearRect (ctx s) (of_Z 0) (of_Z 0)
                             canvas_width canvas_height)) as [c1 ->].
  destruct draft as [d |]; [| by eexists].
  destruct (tsx_drawElement_restores c1 d) as (c2 & Hc2 & _).
  simpl. rewrite Hc2. by eexists.
Qed.

Lemma tsx_setElements_Some
    (f : list CanvasElement → list CanvasElement) s :
  ∃ c, Tsx.setElements f s
       = Some {| elements := f (elements s); tool := tool s;
                 drawingRef := drawingRef s; ctx := c |}.
Proof.
  unfold Tsx.setElements.
  destruct (tsx_redraw_Some None (with_elements s (f (elements s))))
    as [c ->].
  by exists c.
Qed.

(** Replace the calls of [redraw] and [setElements] by their results. *)
Ltac tsx_effects :=
  repeat match goal with
  | H : context [Tsx.setElements ?f ?s] |- _ =>
      let c := fresh "c" in let E := fresh "E" in
      destruct (tsx_setElements_Some f s) as [c E]; rewrite E in H; clear E
  | |- context [Tsx.setElements ?f ?s] =>
      let c := fresh "c" in let E := fresh "E" in
      destruct (tsx_setElements_Some f s) as [c E]; rewrite E; clear E
  | H : context [Tsx.redraw ?d ?s] |- _ =>
      let c := fresh "c" in let E := fresh "E" in
      destruct (tsx_redraw_Some d s) as [c E]; rewrite E in H; clear E
  | |- context [Tsx.redraw ?d ?s] =>
      let c := fresh "c" in let E := fresh "E" in
      destruct (tsx_redraw_Some d s) as [c E]; rewrite E; clear E
  end.

Lemma tsx_onMouseUp_inactive r e s :
  active (drawingRef s) = false → Tsx.onMouseUp r e s = Some s.
Proof. intros H. unfold Tsx.onMouseUp. by rewrite H. Qed.

Lemma tsx_onMouseUp_draw r e s :
  active (drawingRef s) = true → tool s = draw →
  ∃ c, Tsx.onMouseUp r e s
       = Some {| elements :=
                   elements s
                   ++ [DrawEl (path (drawingRef s) ++ [getPos r e])];
                 tool := draw;
                 drawingRef :=
                   {| active := false; start := start (drawingRef s);
                      path := path (drawingRef s) ++ [getPos r e] |};
                 ctx := c |}.
Proof.
  intros Ha Ht. unfold Tsx.onMouseUp. rewrite Ha, Ht. cbn [negb].
  rewrite decide_True by done.
  match goal with
  | |- ∃ c, Tsx.setElements ?f ?s' = _ =>
      destruct (tsx_setElements_Some f s') as [c ->]
  end.
  exists c. simpl. by rewrite Ht.
Qed.

Lemma tsx_onMouseUp_shape r e s (p : Point) (tl : CanvasTool.t)
    (el : CanvasElement) :
  active (drawingRef s) = true → tool s ≠ draw →
  start (drawingRef s) = Some p →
  Tsx.TOOL_MAP !! tool s = Some tl →
  CanvasTool.makeElement tl p (getPos r e) = Some el →
  ∃ c, Tsx.onMouseUp r e s
       = Some {| elements := elements s ++ [el];
                 tool := tool s;
                 drawingRef := set_active (drawingRef s) false;
                 ctx := c |}.
Proof.
  intros Ha Ht Hs Hl Hm. unfold Tsx.onMouseUp. rewrite Ha. cbn [negb].
  rewrite decide_False by done.
  cbn [drawingRef with_drawingRef set_active start tool].
  rewrite Hs, Hl. cbn [mbind option_bind]. rewrite Hm.
  match goal with
  | |- ∃ c, Tsx.setElements ?f ?s' = _ =>
      destruct (tsx_setElements_Some f s') as [c ->]
  end.
  by exists c.
Qed.

Lemma tsx_onMouseMove_inactive r e s :
  active (drawingRef s) = false → Tsx.onMouseMove r e s = Some s.
Proof. intros H. unfold Tsx.onMouseMove. by rewrite H. Qed.

Lemma tsx_onMouseMove_draw r e s :
  active (drawingRef s) = true → tool s = draw →
  ∃ c, Tsx.onMouseMove r e s
       = Some {| elements := elements s; tool := draw;
                 drawingRef := push (drawingRef s) (getPos r e);
                 ctx := c |}.
Proof.
  intros Ha Ht. unfold Tsx.onMouseMove. rewrite Ha, Ht. cbn [negb].
  rewrite decide_True by done.
  match goal with
  | |- ∃ c, Tsx.redraw ?d ?s' = _ =>
      destruct (tsx_redraw_Some d s') as [c ->]
  end.
  exists c. unfold with_ctx. simpl. by rewrite Ht.
Qed.

Lemma tsx_onMouseMove_shape r e s (tl : CanvasTool.t) :
  active (drawingRef s) = true → tool s ≠ draw →
  Tsx.TOOL_MAP !! tool s = Some tl →
  ∃ c, Tsx.onMouseMove r e s = Some (with_ctx s c).
Proof.
  intros Ha Ht Hl. unfold Tsx.onMouseMove. rewrite Ha. cbn [negb].
  rewrite decide_False by done.
  destruct (start (drawingRef s)) as [p |].
  - rewrite Hl. cbn [mbind option_bind]. apply tsx_redraw_Some.
  - exists (ctx s). by destruct s.
Qed.

Lemma tsx_run_app (evs1 evs2 : list Event) s :
  Tsx.run (evs1 ++ evs2) s = Tsx.run evs1 s ≫= Tsx.run evs2.
Proof.
  revert s. induction evs1 as [| ev evs1 IH]; intros s; [done |].
  simpl. destruct (Tsx.handle ev s) as [s' |]; [apply IH | done].
Qed.

(** With a shape tool selected, pointer moves only repaint. *)
Lemma tsx_run_moves_shape (ms : list (DOMRect * MouseEvent)) s :
  tool s ≠ draw → tool s ≠ image →
  ∃ c, Tsx.run (moves ms) s = Some (with_ctx s c).
Proof.
  intros Hd Hi. revert s Hd Hi.
  induction ms as [| [r e] ms IH]; intros s Hd Hi.
  - exists (ctx s). by destruct s.
  - assert (∃ c, Tsx.onMouseMove r e s = Some (with_ctx s c))
      as [c Hc].
    { destruct (active (drawingRef s)) eqn:Ha.
      - assert (is_Some (Tsx.TOOL_MAP !! tool s)) as [tl Hl].
        { rewrite tool_map_lookup. by destruct (tool s). }
        by eapply tsx_onMouseMove_shape.
      - rewrite tsx_onMouseMove_inactive by done.
        exists (ctx s). by destruct s. }
    cbn [moves fmap list_fmap Tsx.run Tsx.handle fst snd].
    rewrite Hc. cbn [mbind option_bind].
    destruct (IH (with_ctx s c)) as [c' Hc']; [done | done |].
    exists c'. unfold moves in Hc'. by rewrite Hc'.
Qed.

(** With the freehand tool selected, every pointer move of an active drag
    pushes its position. *)
Lemma tsx_run_moves_draw (ms : list (DOMRect * MouseEvent)) s :
  active (drawingRef s) = true → tool s = draw →
  ∃ c, Tsx.run (moves ms) s
       = Some {| elements := elements s; tool := draw;
                 drawingRef :=
                   {| active := true; start := start (drawingRef s);
                      path := path (drawingRef s) ++ positions ms |};
                 ctx := c |}.
Proof.
  revert s. induction ms as [| [r e] ms IH]; intros s Ha Ht.
  - exists (ctx s). simpl. rewrite app_nil_r.
    destruct s as [? ? [? ? ?] ?]. simpl in *. by subst.
  - destruct (tsx_onMouseMove_draw r e s Ha Ht) as [c Hc].
    cbn [moves fmap list_fmap Tsx.run Tsx.handle fst snd].
    rewrite Hc. cbn [mbind option_bind].
    edestruct IH as [c' Hc']; [| | unfold moves in Hc'; rewrite Hc'].
    + simpl. done.
    + done.
    + exists c'. simpl. by rewrite <- app_assoc.
Qed.

(** A drag with a shape tool selected commits what [makeElement] builds
    from the press and release positions. *)
Lemma tsx_drag_shape s (r0 r1 : DOMRect) (e0 e1 : MouseEvent)
    (ms : list (DOMRect * MouseEvent)) (tl : CanvasTool.t)
    (el : CanvasElement) :
  tool s ≠ draw →
  Tsx.TOOL_MAP !! tool s = Some tl →
  CanvasTool.makeElement tl (getPos r0 e0) (getPos r1 e1) = Some el →
  ∃ c, Tsx.run (drag r0 e0 ms r1 e1) s
       = Some {| elements := elements s ++ [el]; tool := tool s;
                 drawingRef :=
                   {| active := false; start := Some (getPos r0 e0);
                      path := [getPos r0 e0] |};
                 ctx := c |}.
Proof.
  intros Hd Hl Hm.
  assert (Hi : tool s ≠ image).
  { intros Hi. rewrite Hi, tool_map_lookup in Hl. done. }
  set (s1 := with_drawingRef s
               {| active := true; start := Some (getPos r0 e0);
                  path := [getPos r0 e0] |}).
  unfold drag.
  cbn [Tsx.run Tsx.handle Tsx.onMouseDown mbind option_bind]. fold s1.
  rewrite tsx_run_app.
  destruct (tsx_run_moves_shape ms s1) as [c ->]; [done | done |].
  cbn [mbind option_bind Tsx.run Tsx.handle].
  destruct (tsx_onMouseUp_shape r1 e1 (with_ctx s1 c) (getPos r0 e0) tl el)
    as [c' ->]; try done.
  by exists c'.
Qed.

(** A drag with the freehand tool selected commits the path of all its
    positions. *)
Lemma tsx_drag_draw s (r0 r1 : DOMRect) (e0 e1 : MouseEvent)
    (ms : list (DOMRect * MouseEvent)) :
  tool s = draw →
  ∃ c, Tsx.run (drag r0 e0 ms r1 e1) s
       = Some {| elements :=
                   elements s
                   ++ [DrawEl (getPos r0 e0 :: positions ms
                               ++ [getPos r1 e1])];
                 tool := draw;
                 drawingRef :=
                   {| active := false; start := Some (getPos r0 e0);
                      path := getPos r0 e0 :: positions ms
                              ++ [getPos r1 e1] |};
                 ctx := c |}.
Proof.
  intros Ht.
  set (s1 := with_drawingRef s
               {| active := true; start := Some (getPos r0 e0);
                  path := [getPos r0 e0] |}).
  unfold drag.
  cbn [Tsx.run Tsx.handle Tsx.onMouseDown mbind option_bind]. fold s1.
  rewrite tsx_run_app.
  destruct (tsx_run_moves_draw ms s1) as [c ->]; [done | done |].
  cbn [mbind option_bind Tsx.run Tsx.handle].
  match goal with
  | |- context [Tsx.onMouseUp r1 e1 ?s2] =>
      destruct (tsx_onMouseUp_draw r1 e1 s2) as [c' ->]; [done | done |]
  end.
  by exists c'.
Qed.

(** Apart from the clear button, what an event does to the tool, to the
    drag record and what it appends to the document does not depend on
    the document (nor on the canvas). *)
Lemma tsx_handle_document_independent (ev : Event) (s t s1 : State) :
  ev ≠ ClearClick → tool t = tool s → drawingRef t = drawingRef s →
  Tsx.handle ev s = Some s1 →
  ∃ t1 d, Tsx.handle ev t = Some t1
          ∧ tool t1 = tool s1 ∧ drawingRef t1 = drawingRef s1
          ∧ elements s1 = elements s ++ d
          ∧ elements t1 = elements t ++ d.
Proof.
  intros Hev Ht Hd H.
  destruct s as [els ts ds cs], t as [elt tt dt ct]. simpl in Ht, Hd.
  subst tt dt.
  assert (Hup : ∀ r e,
    Tsx.onMouseUp r e
      {| elements := els; tool := ts; drawingRef := ds; ctx := cs |}
      = Some s1 →
    ∃ t1 d,
      Tsx.onMouseUp r e
        {| elements := elt; tool := ts; drawingRef := ds; ctx := ct |}
        = Some t1
      ∧ tool t1 = tool s1 ∧ drawingRef t1 = drawingRef s1
      ∧ elements s1 = els ++ d ∧ elements t1 = elt ++ d).
  { clear H. intros r e H. unfold Tsx.onMouseUp in *. simpl in *.
    destruct (active ds); [| commits (@nil CanvasElement)].
    simpl in *. destruct (decide (ts = draw)).
    - tsx_effects. commits [DrawEl (path ds ++ [getPos r e])].
    - destruct (start ds); [| commits (@nil CanvasElement)].
      destruct (Tsx.TOOL_MAP !! ts) as [tl |]; [| done]. simpl in *.
      destruct (CanvasTool.makeElement tl p (getPos r e)) as [el |].
      + tsx_effects. commits [el].
      + commits (@nil CanvasElement). }
  destruct ev as [r e | r e | r e | r e | i | | img]; try done;
    cbn [Tsx.handle] in *; try by apply Hup.
  - unfold Tsx.onMouseDown in *. commits (@nil CanvasElement).
  - unfold Tsx.onMouseMove in *. simpl in *.
    destruct (active ds); [| commits (@nil CanvasElement)].
    simpl in *. destruct (decide (ts = draw)).
    + tsx_effects. commits (@nil CanvasElement).
    + destruct (start ds); [| commits (@nil CanvasElement)].
      destruct (Tsx.TOOL_MAP !! ts); [| done]. simpl in *.
      tsx_effects. commits (@nil CanvasElement).
  - unfold Tsx.onToolClick, Tsx.setTool in *.
    destruct (Tsx.TOOLS !! i); commits (@nil CanvasElement).
  - unfold Tsx.onload in *. tsx_effects.
    match goal with
    | H : Some {| elements := _ ++ ?d |} = _ |- _ => commits d
    end.
Qed.

Lemma tsx_run_document_independent (evs : list Event) (s t s1 : State) :
  ClearClick ∉ evs → tool t = tool s → drawingRef t = drawingRef s →
  Tsx.run evs s = Some s1 →
  ∃ t1 d, Tsx.run evs t = Some t1
          ∧ tool t1 = tool s1 ∧ drawingRef t1 = drawingRef s1
          ∧ elements s1 = elements s ++ d
          ∧ elements t1 = elements t ++ d.
Proof.
  revert s t. induction evs as [| ev evs IH]; intros s t Hnc Ht Hd Hrun.
  - injection Hrun as <-. exists t, []. by rewrite !app_nil_r.
  - apply not_elem_of_cons in Hnc as [Hne Hnc]. simpl in Hrun.
    destruct (Tsx.handle ev s) as [s' |] eqn:Hs'; [| done].
    destruct (tsx_handle_document_independent ev s t s' (not_eq_sym Hne)
                Ht Hd Hs') as (t' & d & Ht' & Htool & Hdrag & Hels & Helt).
    destruct (IH s' t' Hnc Htool Hdrag Hrun)
      as (t1 & d' & Ht1 & ? & ? & Hels1 & Helt1).
    exists t1, (d ++ d'). simpl. rewrite Ht'. simpl.
    rewrite Hels1, Helt1, Hels, Helt, !app_assoc. done.
Qed.

End TsxController.

(** * The controller of the JSX revision *)

Section JsxController.

Implicit Types (s : State) (r : DOMRect) (e : MouseEvent).

Lemma jsx_makeShapeElement_started (t : ToolId) (p q : Point) :
  t ≠ draw → t ≠ image →
  ∃ el, Jsx.makeShapeElement t (Some p) q = Some (Some el)
        ∧ type el = t.
Proof.
  intros Hd Hi. unfold Jsx.makeShapeElement.
  destruct t; try done; simpl; by eexists.
Qed.

Lemma jsx_onMouseUp_inactive r e s :
  active (drawingRef s) = false → Jsx.onMouseUp r e s = Some s.
Proof. intros H. unfold Jsx.onMouseUp. by rewrite H. Qed.

Lemma jsx_onMouseUp_draw r e s :
  active (drawingRef s) = true → tool s = draw →
  ∃ c, Jsx.onMouseUp r e s
       = Some {| elements :=
                   elements s
                   ++ [DrawEl (path (drawingRef s) ++ [getPos r e])];
                 tool := draw;
                 drawingRef :=
                   {| active := false; start := start (drawingRef s);
                      path := path (drawingRef s) ++ [getPos r e] |};
                 ctx := c |}.
Proof.
  intros Ha Ht. unfold Jsx.onMouseUp. rewrite Ha, Ht. cbn [negb].
  rewrite decide_True by done.
  eexists. unfold Jsx.setElements, Jsx.redraw, with_ctx. simpl.
  rewrite Ht. reflexivity.
Qed.

Lemma jsx_onMouseUp_shape r e s (p : Point) (el : CanvasElement) :
  active (drawingRef s) = true → tool s ≠ draw →
  start (drawingRef s) = Some p →
  Jsx.makeShapeElement (tool s) (Some p) (getPos r e) = Some (Some el) →
  ∃ c, Jsx.onMouseUp r e s
       = Some {| elements := elements s ++ [el];
                 tool := tool s;
                 drawingRef := set_active (drawingRef s) false;
                 ctx := c |}.
Proof.
  intros Ha Ht Hs Hm. unfold Jsx.onMouseUp. rewrite Ha. cbn [negb].
  rewrite decide_False by done.
  cbn [drawingRef with_drawingRef set_active start tool].
  rewrite Hs, Hm. by eexists.
Qed.

Lemma jsx_onMouseMove_inactive r e s :
  active (drawingRef s) = false → Jsx.onMouseMove r e s = Some s.
Proof. intros H. unfold Jsx.onMouseMove. by rewrite H. Qed.

Lemma jsx_onMouseMove_draw r e s :
  active (drawingRef s) = true → tool s = draw →
  ∃ c, Jsx.onMouseMove r e s
       = Some {| elements := elements s; tool := draw;
                 drawingRef := push (drawingRef s) (getPos r e);
                 ctx := c |}.
Proof.
  intros Ha Ht. unfold Jsx.onMouseMove. rewrite Ha, Ht. cbn [negb].
  rewrite decide_True by done.
  eexists. unfold Jsx.redraw, with_ctx. simpl. rewrite Ht. reflexivity.
Qed.

Lemma jsx_onMouseMove_shape r e s (p : Point) :
  active (drawingRef s) = true → tool s ≠ draw →
  start (drawingRef s) = Some p →
  ∃ c, Jsx.onMouseMove r e s = Some (with_ctx s c).
Proof.
  intros Ha Ht Hs. unfold Jsx.onMouseMove. rewrite Ha. cbn [negb].
  rewrite decide_False by done. rewrite Hs.
  unfold Jsx.makeShapeElement.
  destruct (tool s); try done; simpl; by eexists.
Qed.

Lemma jsx_run_app (evs1 evs2 : list Event) s :
  Jsx.run (evs1 ++ evs2) s = Jsx.run evs1 s ≫= Jsx.run evs2.
Proof.
  revert s. induction evs1 as [| ev evs1 IH]; intros s; [done |].
  simpl. destruct (Jsx.handle ev s) as [s' |]; [apply IH | done].
Qed.

Lemma jsx_run_moves_shape (ms : list (DOMRect * MouseEvent)) s :
  tool s ≠ draw →
  (active (drawingRef s) = true → is_Some (start (drawingRef s))) →
  ∃ c, Jsx.run (moves ms) s = Some (with_ctx s c).
Proof.
  intros Hd Hst. revert s Hd Hst.
  induction ms as [| [r e] ms IH]; intros s Hd Hst.
  - exists (ctx s). by destruct s.
  - assert (∃ c, Jsx.onMouseMove r e s = Some (with_ctx s c))
      as [c Hc].
    { destruct (active (drawingRef s)) eqn:Ha.
      - destruct Hst as [p Hp]; [done |].
        by eapply jsx_onMouseMove_shape.
      - rewrite jsx_onMouseMove_inactive by done.
        exists (ctx s). by destruct s. }
    cbn [moves fmap list_fmap Jsx.run Jsx.handle fst snd].
    rewrite Hc. cbn [mbind option_bind].
    destruct (IH (with_ctx s c)) as [c' Hc']; [done | done |].
    exists c'. unfold moves in Hc'. by rewrite Hc'.
Qed.

Lemma jsx_run_moves_draw (ms : list (DOMRect * MouseEvent)) s :
  active (drawingRef s) = true → tool s = draw →
  ∃ c, Jsx.run (moves ms) s
       = Some {| elements := elements s; tool := draw;
                 drawingRef :=
                   {| active := true; start := start (drawingRef s);
                      path := path (drawingRef s) ++ positions ms |};
                 ctx := c |}.
Proof.
  revert s. induction ms as [| [r e] ms IH]; intros s Ha Ht.
  - exists (ctx s). simpl. rewrite app_nil_r.
    destruct s as [? ? [? ? ?] ?]. simpl in *. by subst.
  - destruct (jsx_onMouseMove_draw r e s Ha Ht) as [c Hc].
    cbn [moves fmap list_fmap Jsx.run Jsx.handle fst snd].
    rewrite Hc. cbn [mbind option_bind].
    edestruct IH as [c' Hc']; [| | unfold moves in Hc'; rewrite Hc'].
    + simpl. done.
    + done.
    + exists c'. simpl. by rewrite <- app_assoc.
Qed.

Lemma jsx_drag_shape s (r0 r1 : DOMRect) (e0 e1 : MouseEvent)
    (ms : list (DOMRect * MouseEvent)) (el : CanvasElement) :
  tool s ≠ draw →
  Jsx.makeShapeElement (tool s) (Some (getPos r0 e0)) (getPos r1 e1)
    = Some (Some el) →
  ∃ c, Jsx.run (drag r0 e0 ms r1 e1) s
       = Some {| elements := elements s ++ [el]; tool := tool s;
                 drawingRef :=
                   {| active := false; start := Some (getPos r0 e0);
                      path := [getPos r0 e0] |};
                 ctx := c |}.
Proof.
  intros Hd Hm.
  set (s1 := with_drawingRef s
               {| active := true; start := Some (getPos r0 e0);
                  path := [getPos r0 e0] |}).
  unfold drag.
  cbn [Jsx.run Jsx.handle Jsx.onMouseDown mbind option_bind]. fold s1.
  rewrite jsx_run_app.
  destruct (jsx_run_moves_shape ms s1) as [c ->]; [done | by eexists |].
  cbn [mbind option_bind Jsx.run Jsx.handle].
  destruct (jsx_onMouseUp_shape r1 e1 (with_ctx s1 c) (getPos r0 e0) el)
    as [c' ->]; try done.
  by exists c'.
Qed.

Lemma jsx_drag_draw s (r0 r1 : DOMRect) (e0 e1 : MouseEvent)
    (ms : list (DOMRect * MouseEvent)) :
  tool s = draw →
  ∃ c, Jsx.run (drag r0 e0 ms r1 e1) s
       = Some {| elements :=
                   elements s
                   ++ [DrawEl (getPos r0 e0 :: positions ms
                               ++ [getPos r1 e1])];
                 tool := draw;
                 drawingRef :=
                   {| active := false; start := Some (getPos r0 e0);
                      path := getPos r0 e0 :: positions ms
                              ++ [getPos r1 e1] |};
                 ctx := c |}.
Proof.
  intros Ht.
  set (s1 := with_drawingRef s
               {| active := true; start := Some (getPos r0 e0);
                  path := [getPos r0 e0] |}).
  unfold drag.
  cbn [Jsx.run Jsx.handle Jsx.onMouseDown mbind option_bind]. fold s1.
  rewrite jsx_run_app.
  destruct (jsx_run_moves_draw ms s1) as [c ->]; [done | done |].
  cbn [mbind option_bind Jsx.run Jsx.handle].
  match goal with
  | |- context [Jsx.onMouseUp r1 e1 ?s2] =>
      destruct (jsx_onMouseUp_draw r1 e1 s2) as [c' ->]; [done | done |]
  end.
  by exists c'.
Qed.

Lemma jsx_handle_document_independent (ev : Event) (s t s1 : State) :
  ev ≠ ClearClick → tool t = tool s → drawingRef t = drawingRef s →
  Jsx.handle ev s = Some s1 →
  ∃ t1 d, Jsx.handle ev t = Some t1
          ∧ tool t1 = tool s1 ∧ drawingRef t1 = drawingRef s1
          ∧ elements s1 = elements s ++ d
          ∧ elements t1 = elements t ++ d.
Proof.
  intros Hev Ht Hd H.
  destruct s as [els ts ds cs], t as [elt tt dt ct]. simpl in Ht, Hd.
  subst tt dt.
  assert (Hup : ∀ r e,
    Jsx.onMouseUp r e
      {| elements := els; tool := ts; drawingRef := ds; ctx := cs |}
      = Some s1 →
    ∃ t1 d,
      Jsx.onMouseUp r e
        {| elements := elt; tool := ts; drawingRef := ds; ctx := ct |}
        = Some t1
      ∧ tool t1 = tool s1 ∧ drawingRef t1 = drawingRef s1
      ∧ elements s1 = els ++ d ∧ elements t1 = elt ++ d).
  { clear H. intros r e H. unfold Jsx.onMouseUp in *. simpl in *.
    destruct (active ds); [| commits (@nil CanvasElement)].
    simpl in *. destruct (decide (ts = draw)).
    - commits [DrawEl (path ds ++ [getPos r e])].
    - destruct (Jsx.makeShapeElement ts (start ds) (getPos r e))
        as [[el |] |]; [commits [el] | commits (@nil CanvasElement) | done]. }
  destruct ev as [r e | r e | r e | r e | i | | img]; try done;
    cbn [Jsx.handle] in *; try by apply Hup.
  - unfold Jsx.onMouseDown in *. commits (@nil CanvasElement).
  - unfold Jsx.onMouseMove in *. simpl in *.
    destruct (active ds); [| commits (@nil CanvasElement)].
    simpl in *. destruct (decide (ts = draw)).
    + commits (@nil CanvasElement).
    + destruct (Jsx.makeShapeElement ts (start ds) (getPos r e));
        [commits (@nil CanvasElement) | done].
  - unfold Jsx.onToolClick, Jsx.setTool in *.
    destruct (Jsx.TOOLS !! i); commits (@nil CanvasElement).
  - unfold Jsx.onload in *.
    match goal with
    | H : Some (Jsx.setElements (λ prev, prev ++ ?d) _) = _ |- _ =>
        commits d
    end.
Qed.

Lemma jsx_run_document_independent (evs : list Event) (s t s1 : State) :
  ClearClick ∉ evs → tool t = tool s → drawingRef t = drawingRef s →
  Jsx.run evs s = Some s1 →
  ∃ t1 d, Jsx.run evs t = Some t1
          ∧ tool t1 = tool s1 ∧ drawingRef t1 = drawingRef s1
          ∧ elements s1 = elements s ++ d
          ∧ elements t1 = elements t ++ d.
Proof.
  revert s t. induction evs as [| ev evs IH]; intros s t Hnc Ht Hd Hrun.
  - injection Hrun as <-. exists t, []. by rewrite !app_nil_r.
  - apply not_elem_of_cons in Hnc as [Hne Hnc]. simpl in Hrun.
    destruct (Jsx.handle ev s) as [s' |] eqn:Hs'; [| done].
    destruct (jsx_handle_document_independent ev s t s' (not_eq_sym Hne)
                Ht Hd Hs') as (t' & d & Ht' & Htool & Hdrag & Hels & Helt).
    destruct (IH s' t' Hnc Htool Hdrag Hrun)
      as (t1 & d' & Ht1 & ? & ? & Hels1 & Helt1).
    exists t1, (d ++ d'). simpl. rewrite Ht'. simpl.
    rewrite Hels1, Helt1, Hels, Helt, !app_assoc. done.
Qed.

End JsxController.

(** * Invariants *)

Section Invariants.

Implicit Types (s : State) (r : DOMRect) (e : MouseEvent).

Lemma long_strokes_nil : long_strokes [].
Proof. intros ps H. by apply elem_of_nil in H. Qed.

Lemma long_strokes_snoc (els : list CanvasElement) (el : CanvasElement) :
  long_strokes els →
  (∀ ps, el = DrawEl ps → (2 ≤ length ps)%nat) →
  long_strokes (els ++ [el]).
Proof.
  intros Hels Hel ps [H | H]%elem_of_app; [by apply Hels |].
  apply list_elem_of_singleton in H. by apply Hel.
Qed.

Lemma tsx_shape_tool (t : ToolId) :
  t ≠ draw → t ≠ image →
  ∃ tl, Tsx.TOOL_MAP !! t = Some tl
        ∧ ∀ p q, ∃ el, CanvasTool.makeElement tl p q = Some el
                       ∧ type el = t.
Proof.
  intros Hd Hi. rewrite tool_map_lookup.
  destruct t; try done; eexists; (split; [done |]); intros p q;
    by eexists.
Qed.

Lemma tsx_toolbar_ids (i : nat) (t : CanvasTool.t) :
  Tsx.TOOLS !! i = Some t → CanvasTool.id t ≠ image.
Proof.
  intros H. do 4 (destruct i as [| i]; [by inversion H |]). done.
Qed.

Lemma jsx_toolbar_ids (i : nat) (t : ToolId) :
  Jsx.TOOLS !! i = Some t → t ≠ image.
Proof.
  intros H. do 4 (destruct i as [| i]; [by inversion H |]). done.
Qed.

(** From a state satisfying the invariant every event of Canvas.tsx is
    handled without a [TypeError], and the invariant holds afterwards. *)
Lemma tsx_handle_inv (ev : Event) s :
  inv s → ∃ s', Tsx.handle ev s = Some s' ∧ inv s'.
Proof.
  intros (Ht & Hd & Hl).
  assert (Hup : ∀ r e, ∃ s', Tsx.onMouseUp r e s = Some s' ∧ inv s').
  { intros r e. destruct (active (drawingRef s)) eqn:Ha.
    - destruct (Hd Ha) as [[p Hp] Hne].
      destruct (decide (tool s = draw)) as [Hdr | Hdr].
      + destruct (tsx_onMouseUp_draw r e s Ha Hdr) as [c ->].
        eexists. split; [reflexivity |]. split_and!; try done.
        simpl. apply long_strokes_snoc; [done |].
        intros ps [= <-]. rewrite length_app. simpl.
        destruct (path (drawingRef s)); [done | simpl; lia].
      + destruct (tsx_shape_tool (tool s) Hdr Ht) as (tl & Hl' & Hmk).
        destruct (Hmk p (getPos r e)) as (el & Hel & Hty).
        destruct (tsx_onMouseUp_shape r e s p tl el Ha Hdr Hp Hl' Hel)
          as [c ->].
        eexists. split; [reflexivity |]. split_and!; try done.
        simpl. apply long_strokes_snoc; [done |].
        intros ps ->. simpl in Hty. congruence.
    - rewrite tsx_onMouseUp_inactive by done. by eexists. }
  destruct ev as [r e | r e | r e | r e | i | | img]; cbn [Tsx.handle];
    try apply Hup.
  - eexists. split; [reflexivity |]. by split_and!.
  - destruct (active (drawingRef s)) eqn:Ha.
    + destruct (decide (tool s = draw)) as [Hdr | Hdr].
      * destruct (tsx_onMouseMove_draw r e s Ha Hdr) as [c ->].
        eexists. split; [reflexivity |]. split_and!; try done.
        intros _. simpl. destruct (Hd Ha) as [Hst _].
        split; [done |]. by destruct (path (drawingRef s)).
      * destruct (tsx_shape_tool (tool s) Hdr Ht) as (tl & Hl' & _).
        destruct (tsx_onMouseMove_shape r e s tl Ha Hdr Hl') as [c ->].
        eexists. split; [reflexivity |]. done.
    + rewrite tsx_onMouseMove_inactive by done. by eexists.
  - unfold Tsx.onToolClick. destruct (Tsx.TOOLS !! i) as [t |] eqn:Hi.
    + eexists. split; [reflexivity |]. split_and!; try done.
      simpl. by eapply tsx_toolbar_ids.
    + by eexists.
  - unfold Tsx.clear.
    destruct (tsx_setElements_Some (λ _, []) s) as [c ->].
    eexists. split; [reflexivity |]. split_and!; try done.
    apply long_strokes_nil.
  - unfold Tsx.onload.
    match goal with
    | |- context [Tsx.setElements ?f s] =>
        destruct (tsx_setElements_Some f s) as [c ->]
    end.
    eexists. split; [reflexivity |]. split_and!; try done.
    simpl. by apply long_strokes_snoc.
Qed.

Lemma tsx_run_inv (evs : list Event) s :
  inv s → ∃ s', Tsx.run evs s = Some s' ∧ inv s'.
Proof.
  revert s. induction evs as [| ev evs IH]; intros s Hinv.
  - by exists s.
  - destruct (tsx_handle_inv ev s Hinv) as (s1 & Hs1 & Hinv1).
    simpl. rewrite Hs1. by apply IH.
Qed.

Lemma initial_inv : inv initial.
Proof. split_and!; [done | by intros [=] | apply long_strokes_nil]. Qed.

Lemma tsx_mount_inv : ∃ s0, Tsx.mount = Some s0 ∧ inv s0.
Proof.
  unfold Tsx.mount. destruct (tsx_redraw_Some None initial) as [c ->].
  eexists. split; [reflexivity |]. apply initial_inv.
Qed.

Lemma tsx_reachable_inv s : Tsx.reachable s → inv s.
Proof.
  intros [evs Hevs].
  destruct tsx_mount_inv as (s0 & Hs0 & Hinv0). rewrite Hs0 in Hevs.
  destruct (tsx_run_inv evs s0 Hinv0) as (s' & Hs' & Hinv').
  simpl in Hevs. congruence.
Qed.

(** The same for the JSX revision. *)
Lemma jsx_handle_inv (ev : Event) s :
  inv s → ∃ s', Jsx.handle ev s = Some s' ∧ inv s'.
Proof.
  intros (Ht & Hd & Hl).
  assert (Hup : ∀ r e, ∃ s', Jsx.onMouseUp r e s = Some s' ∧ inv s').
  { intros r e. destruct (active (drawingRef s)) eqn:Ha.
    - destruct (Hd Ha) as [[p Hp] Hne].
      destruct (decide (tool s = draw)) as [Hdr | Hdr].
      + destruct (jsx_onMouseUp_draw r e s Ha Hdr) as [c ->].
        eexists. split; [reflexivity |]. split_and!; try done.
        simpl. apply long_strokes_snoc; [done |].
        intros ps [= <-]. rewrite length_app. simpl.
        destruct (path (drawingRef s)); [done | simpl; lia].
      + destruct (jsx_makeShapeElement_started (tool s) p (getPos r e)
                    Hdr Ht) as (el & Hel & Hty).
        destruct (jsx_onMouseUp_shape r e s p el Ha Hdr Hp Hel) as [c ->].
        eexists. split; [reflexivity |]. split_and!; try done.
        simpl. apply long_strokes_snoc; [done |].
        intros ps ->. simpl in Hty. congruence.
    - rewrite jsx_onMouseUp_inactive by done. by eexists. }
  destruct ev as [r e | r e | r e | r e | i | | img]; cbn [Jsx.handle];
    try apply Hup.
  - eexists. split; [reflexivity |]. by split_and!.
  - destruct (active (drawingRef s)) eqn:Ha.
    + destruct (Hd Ha) as [[p Hp] Hne].
      destruct (decide (tool s = draw)) as [Hdr | Hdr].
      * destruct (jsx_onMouseMove_draw r e s Ha Hdr) as [c ->].
        eexists. split; [reflexivity |]. split_and!; try done.
        intros _. simpl. split; [done |].
        by destruct (path (drawingRef s)).
      * destruct (jsx_onMouseMove_shape r e s p Ha Hdr Hp) as [c ->].
        eexists. split; [reflexivity |]. done.
    + rewrite jsx_onMouseMove_inactive by done. by eexists.
  - unfold Jsx.onToolClick. destruct (Jsx.TOOLS !! i) as [t |] eqn:Hi.
    + eexists. split; [reflexivity |]. split_and!; try done.
      simpl. by eapply jsx_toolbar_ids.
    + by eexists.
  - eexists. split; [reflexivity |]. split_and!; try done.
    apply long_strokes_nil.
  - eexists. split; [reflexivity |]. split_and!; try done.
    simpl. by apply long_strokes_snoc.
Qed.

Lemma jsx_run_inv (evs : list Event) s :
  inv s → ∃ s', Jsx.run evs s = Some s' ∧ inv s'.
Proof.
  revert s. induction evs as [| ev evs IH]; intros s Hinv.
  - by exists s.
  - destruct (jsx_handle_inv ev s Hinv) as (s1 & Hs1 & Hinv1).
    simpl. rewrite Hs1. by apply IH.
Qed.

Lemma jsx_mount_inv : inv Jsx.mount.
Proof. apply initial_inv. Qed.

Lemma jsx_reachable_inv s : Jsx.reachable s → inv s.
Proof.
  intros [evs Hevs].
  destruct (jsx_run_inv evs Jsx.mount jsx_mount_inv) as (s' & Hs' & Hinv').
  congruence.
Qed.

End Invariants.

(** * Shape construction *)

(** C1. For every pair of points the rect tool builds
    [{x: min(p1.x,p2.x), y: min(p1.y,p2.y), w: |p2.x-p1.x|, h: |p2.y-p1.y|}]
    (both revisions); built from one point twice it is the rectangle of
    width and height 0 at that point, and a drag that is released where it
    was pressed, with the rect tool selected, appends exactly that rectangle
    to the document. *)
Theorem C1_rect_from_two_points (p1 p2 : Point) :
  let el := RectEl (Math.min (x p1) (x p2)) (Math.min (y p1) (y p2))
                   (Math.abs (x p2 - x p1)) (Math.abs (y p2 - y p1)) in
  let degenerate := RectEl (x p1) (y p1) (of_Z 0) (of_Z 0) in
  CanvasTool.makeElement Tsx.RectTool p1 p2 = Some el
  ∧ Jsx.makeShapeElement rect (Some p1) p2 = Some (Some el)
  ∧ CanvasTool.makeElement Tsx.RectTool p1 p1 = Some degenerate
  ∧ Jsx.makeShapeElement rect (Some p1) p1 = Some (Some degenerate)
  ∧ ∀ (s : State) (r0 r1 : DOMRect) (e0 e1 : MouseEvent)
      (ms : list (DOMRect * MouseEvent)),
      tool s = rect → getPos r0 e0 = p1 → getPos r1 e1 = p1 →
      elements <$> Tsx.run (drag r0 e0 ms r1 e1) s
        = Some (elements s ++ [degenerate])
      ∧ elements <$> Jsx.run (drag r0 e0 ms r1 e1) s
        = Some (elements s ++ [degenerate]).
Proof.
  intros el degenerate.
  assert (Hsame : RectEl (Math.min (x p1) (x p1)) (Math.min (y p1) (y p1))
                    (Math.abs (x p1 - x p1)) (Math.abs (y p1 - y p1))
                  = degenerate).
  { unfold degenerate. by rewrite !min_same, !abs_sub_same. }
  split_and!; try done.
  - simpl. by rewrite Hsame.
  - unfold Jsx.makeShapeElement. simpl. by rewrite Hsame.
  - intros s r0 r1 e0 e1 ms Ht Hp0 Hp1. split.
    + destruct (tsx_drag_shape s r0 r1 e0 e1 ms Tsx.RectTool degenerate)
        as [c ->]; rewrite ?Ht, ?Hp0, ?Hp1; try done.
      simpl. by rewrite Hsame.
    + destruct (jsx_drag_shape s r0 r1 e0 e1 ms degenerate) as [c ->];
        rewrite ?Ht, ?Hp0, ?Hp1; try done.
      unfold Jsx.makeShapeElement. simpl. by rewrite Hsame.
Qed.

Lemma C1_rect_from_two_points_witness :
  tool initial = rect
  ∧ elements <$> Tsx.run (drag origin (at_ 5 5) [(origin, at_ 8 1)]
                               origin (at_ 5 5)) initial
    = Some (elements initial
            ++ [RectEl (x (getPos origin (at_ 5 5)))
                       (y (getPos origin (at_ 5 5))) (of_Z 0) (of_Z 0)]).
Proof.
  split; [reflexivity |].
  pose proof (C1_rect_from_two_points (getPos origin (at_ 5 5)) (pt 9 2))
    as (_ & _ & _ & _ & Hcommit).
  exact (proj1 (Hcommit initial origin origin (at_ 5 5) (at_ 5 5)
                  [(origin, at_ 8 1)] eq_refl eq_refl eq_refl)).
Defined.

(** C2. For every pair of points the circle tool builds the ellipse whose
    centre is the midpoint and whose radii are half the absolute coordinate
    deltas (both revisions); a drag from [p1] to [p2] with the circle tool
    selected appends exactly that element, and from (0,0) to (20,10) it is
    [{type:'circle', cx:10, cy:5, rx:10, ry:5}]. *)
Theorem C2_circle_from_two_points (p1 p2 : Point) :
  let el := CircleEl ((x p1 + x p2) / of_Z 2) ((y p1 + y p2) / of_Z 2)
                     (Math.abs (x p2 - x p1) / of_Z 2)
                     (Math.abs (y p2 - y p1) / of_Z 2) in
  CanvasTool.makeElement Tsx.CircleTool p1 p2 = Some el
  ∧ Jsx.makeShapeElement circle (Some p1) p2 = Some (Some el)
  ∧ (∀ (s : State) (r0 r1 : DOMRect) (e0 e1 : MouseEvent)
       (ms : list (DOMRect * MouseEvent)),
       tool s = circle → getPos r0 e0 = p1 → getPos r1 e1 = p2 →
       elements <$> Tsx.run (drag r0 e0 ms r1 e1) s
         = Some (elements s ++ [el])
       ∧ elements <$> Jsx.run (drag r0 e0 ms r1 e1) s
         = Some (elements s ++ [el]))
  ∧ (p1 = pt 0 0 → p2 = pt 20 10 →
     el = CircleEl (of_Z 10) (of_Z 5) (of_Z 10) (of_Z 5)).
Proof.
  intros el. split_and!; try done.
  - intros s r0 r1 e0 e1 ms Ht Hp1 Hp2. split.
    + destruct (tsx_drag_shape s r0 r1 e0 e1 ms Tsx.CircleTool el)
        as [c ->]; rewrite ?Ht, ?Hp1, ?Hp2; done.
    + destruct (jsx_drag_shape s r0 r1 e0 e1 ms el) as [c ->];
        rewrite ?Ht, ?Hp1, ?Hp2; done.
  - intros -> ->. unfold el.
    f_equal; apply Qc_is_canon; by vm_compute.
Qed.

Lemma C2_circle_from_two_points_witness :
  tool (with_tool initial circle) = circle
  ∧ elements <$> Tsx.run (drag origin (at_ 0 0) [(origin, at_ 7 3)]
                               origin (at_ 20 10))
                         (with_tool initial circle)
    = Some (elements (with_tool initial circle)
            ++ [CircleEl (of_Z 10) (of_Z 5) (of_Z 10) (of_Z 5)]).
Proof.
  split; [reflexivity |].
  pose proof (C2_circle_from_two_points (pt 0 0) (pt 20 10))
    as (_ & _ & Hdrag & Hval).
  rewrite <- (Hval eq_refl eq_refl).
  refine (proj1 (Hdrag (with_tool initial circle) origin origin
                   (at_ 0 0) (at_ 20 10) [(origin, at_ 7 3)]
                   eq_refl _ _)).
  - unfold getPos, pt. f_equal; apply Qc_is_canon; by vm_compute.
  - unfold getPos, pt. f_equal; apply Qc_is_canon; by vm_compute.
Defined.

(** C3. Exchanging the two points leaves the element built by the rect tool
    and by the circle tool unchanged, and exchanges the two endpoints of the
    element built by the line tool (both revisions). *)
Theorem C3_build_exchange (p1 p2 : Point) :
  CanvasTool.makeElement Tsx.RectTool p1 p2
    = CanvasTool.makeElement Tsx.RectTool p2 p1
  ∧ CanvasTool.makeElement Tsx.CircleTool p1 p2
    = CanvasTool.makeElement Tsx.CircleTool p2 p1
  ∧ CanvasTool.makeElement Tsx.LineTool p1 p2
    = Some (LineEl (x p1) (y p1) (x p2) (y p2))
  ∧ CanvasTool.makeElement Tsx.LineTool p2 p1
    = fmap (M := option) swap_endpoints
        (CanvasTool.makeElement Tsx.LineTool p1 p2)
  ∧ Jsx.makeShapeElement rect (Some p1) p2
    = Jsx.makeShapeElement rect (Some p2) p1
  ∧ Jsx.makeShapeElement circle (Some p1) p2
    = Jsx.makeShapeElement circle (Some p2) p1
  ∧ Jsx.makeShapeElement line (Some p1) p2
    = Some (Some (LineEl (x p1) (y p1) (x p2) (y p2)))
  ∧ Jsx.makeShapeElement line (Some p2) p1
    = fmap (M := option) (fmap (M := option) swap_endpoints)
        (Jsx.makeShapeElement line (Some p1) p2).
Proof.
  assert (Hrect : RectEl (Math.min (x p1) (x p2)) (Math.min (y p1) (y p2))
                    (Math.abs (x p2 - x p1)) (Math.abs (y p2 - y p1))
                  = RectEl (Math.min (x p2) (x p1)) (Math.min (y p2) (y p1))
                      (Math.abs (x p1 - x p2)) (Math.abs (y p1 - y p2))).
  { f_equal; auto using min_comm, abs_sub_comm. }
  assert (Hcircle : CircleEl ((x p1 + x p2) / of_Z 2)
                      ((y p1 + y p2) / of_Z 2)
                      (Math.abs (x p2 - x p1) / of_Z 2)
                      (Math.abs (y p2 - y p1) / of_Z 2)
                    = CircleEl ((x p2 + x p1) / of_Z 2)
                        ((y p2 + y p1) / of_Z 2)
                        (Math.abs (x p1 - x p2) / of_Z 2)
                        (Math.abs (y p1 - y p2) / of_Z 2)).
  { f_equal; first [by rewrite Qcplus_comm | by rewrite abs_sub_comm]. }
  unfold Jsx.makeShapeElement. simpl.
  split_and!; by rewrite ?Hrect, ?Hcircle.
Qed.

(** The scenarios of the specification, evaluated. *)
Example scenario_rect :
  elements <$> Tsx.run (drag origin (at_ 10 10) [] origin (at_ 50 30)) initial
  = Some [RectEl (of_Z 10) (of_Z 10) (of_Z 40) (of_Z 20)].
Proof.
  destruct (tsx_drag_shape initial origin origin (at_ 10 10) (at_ 50 30) []
              Tsx.RectTool (RectEl (of_Z 10) (of_Z 10) (of_Z 40) (of_Z 20)))
    as [c ->]; try done.
  simpl. do 2 f_equal; apply Qc_is_canon; by vm_compute.
Qed.

Example scenario_line :
  elements <$> Jsx.run (drag origin (at_ 5 5) [] origin (at_ 5 5))
                       (with_tool initial line)
  = Some [LineEl (of_Z 5) (of_Z 5) (of_Z 5) (of_Z 5)].
Proof.
  destruct (jsx_drag_shape (with_tool initial line) origin origin
              (at_ 5 5) (at_ 5 5) []
              (LineEl (of_Z 5) (of_Z 5) (of_Z 5) (of_Z 5)))
    as [c ->]; done.
Qed.

(** * Pointer handling *)

(** C4. With the freehand tool selected, a press at [p0], moves through
    [p1 .. pn] and a release at [pf] append exactly one element to the
    document, the freehand element of path [p0; p1; ..; pn; pf]. *)
Theorem C4_freehand_drag (s : State) (r0 rf : DOMRect) (e0 ef : MouseEvent)
    (ms : list (DOMRect * MouseEvent)) :
  tool s = draw →
  let stroke := DrawEl (getPos r0 e0 :: positions ms ++ [getPos rf ef]) in
  elements <$> Tsx.run (MouseDown r0 e0 :: moves ms ++ [MouseUp rf ef]) s
    = Some (elements s ++ [stroke])
  ∧ elements <$> Jsx.run (MouseDown r0 e0 :: moves ms ++ [MouseUp rf ef]) s
    = Some (elements s ++ [stroke]).
Proof.
  intros Ht stroke.
  change (MouseDown r0 e0 :: moves ms ++ [MouseUp rf ef])
    with (drag r0 e0 ms rf ef).
  split.
  - by destruct (tsx_drag_draw s r0 rf e0 ef ms Ht) as [c ->].
  - by destruct (jsx_drag_draw s r0 rf e0 ef ms Ht) as [c ->].
Qed.

Lemma C4_freehand_drag_witness :
  tool (with_tool initial draw) = draw
  ∧ elements <$> Tsx.run (MouseDown origin (at_ 0 0)
                          :: moves [(origin, at_ 1 2); (origin, at_ 3 4)]
                          ++ [MouseUp origin (at_ 5 6)])
                         (with_tool initial draw)
    = Some (elements (with_tool initial draw)
            ++ [DrawEl (getPos origin (at_ 0 0)
                        :: positions [(origin, at_ 1 2); (origin, at_ 3 4)]
                        ++ [getPos origin (at_ 5 6)])]).
Proof.
  split; [reflexivity |].
  exact (proj1 (C4_freehand_drag (with_tool initial draw) origin origin
                  (at_ 0 0) (at_ 5 6)
                  [(origin, at_ 1 2); (origin, at_ 3 4)] eq_refl)).
Defined.

(** C7. While no drag is active, a pointer-up or pointer-leave changes
    nothing (document, drag state, everything else) and raises nothing. *)
Theorem C7_release_without_drag (s : State) (r : DOMRect) (e : MouseEvent) :
  active (drawingRef s) = false →
  Tsx.handle (MouseUp r e) s = Some s
  ∧ Tsx.handle (MouseLeave r e) s = Some s
  ∧ Jsx.handle (MouseUp r e) s = Some s
  ∧ Jsx.handle (MouseLeave r e) s = Some s.
Proof.
  intros Ha. simpl.
  by rewrite tsx_onMouseUp_inactive, jsx_onMouseUp_inactive.
Qed.

Lemma C7_release_without_drag_witness :
  active (drawingRef initial) = false
  ∧ Tsx.handle (MouseUp origin (at_ 3 4)) initial = Some initial.
Proof.
  split; [reflexivity |].
  apply (C7_release_without_drag initial origin (at_ 3 4)). reflexivity.
Defined.

(** * Image upload *)

(** The binary64 arithmetic of [onload] on two sizes: 800x600 is scaled
    exactly; for 480x69 the quotient 69/480 is rounded down, the product
    with 400 falls just below 57.5 and the height is 57. *)
Example image_height_800_600 :
  B64.to_number
    (Math.round
       (B64.mul (B64.div (B64.of_Z 600) (B64.of_Z 800))
                (B64.of_number (Math.min (of_Z 800) (of_Z 400)))))
  = of_Z 300.
Proof. apply Qc_is_canon. by vm_compute. Qed.

Example image_height_480_69 :
  B64.to_number
    (Math.round
       (B64.mul (B64.div (B64.of_Z 69) (B64.of_Z 480))
                (B64.of_number (Math.min (of_Z 480) (of_Z 400)))))
  = of_Z 57.
Proof. apply Qc_is_canon. by vm_compute. Qed.



(** * Clearing the document *)

(** C8. The clear button empties the document and leaves the selected tool
    and the drag record (active flag, start point, path) as they were.
    Whatever events follow (other than another clear) are handled as they
    would have been without the clear, appending the same elements, now to
    the empty document; in particular a drag with a toolbar tool commits
    its one element. *)
Theorem C8_clear (s : State) :
  (∃ s', Tsx.clear s = Some s'
         ∧ elements s' = [] ∧ tool s' = tool s
         ∧ drawingRef s' = drawingRef s
         ∧ (∀ evs s1, ClearClick ∉ evs → Tsx.run evs s = Some s1 →
              ∃ s2, Tsx.run evs s' = Some s2
                    ∧ tool s2 = tool s1 ∧ drawingRef s2 = drawingRef s1
                    ∧ elements s1 = elements s ++ elements s2)
         ∧ (tool s ≠ image →
            ∀ r0 e0 ms r1 e1,
              ∃ el, elements <$> Tsx.run (drag r0 e0 ms r1 e1) s'
                    = Some [el]))
  ∧ (∃ s', Jsx.clear s = Some s'
           ∧ elements s' = [] ∧ tool s' = tool s
           ∧ drawingRef s' = drawingRef s
           ∧ (∀ evs s1, ClearClick ∉ evs → Jsx.run evs s = Some s1 →
                ∃ s2, Jsx.run evs s' = Some s2
                      ∧ tool s2 = tool s1 ∧ drawingRef s2 = drawingRef s1
                      ∧ elements s1 = elements s ++ elements s2)
           ∧ (tool s ≠ image →
              ∀ r0 e0 ms r1 e1,
                ∃ el, elements <$> Jsx.run (drag r0 e0 ms r1 e1) s'
                      = Some [el])).
Proof.
  split.
  - unfold Tsx.clear.
    destruct (tsx_setElements_Some (λ _, []) s) as [c ->].
    eexists. split; [reflexivity |]. split_and!; try done.
    + intros evs s1 Hnc Hrun.
      destruct (tsx_run_document_independent evs s
                  {| elements := []; tool := tool s;
                     drawingRef := drawingRef s; ctx := c |}
                  s1 Hnc eq_refl eq_refl Hrun)
        as (s2 & d & Hs2 & Htool & Hdrag & Hels & Hd).
      exists s2. simpl in Hd. by rewrite Hd.
    + intros Hi r0 e0 ms r1 e1.
      set (s' := {| elements := []; tool := tool s;
                    drawingRef := drawingRef s; ctx := c |}).
      destruct (decide (tool s = draw)) as [Hdr | Hdr].
      * destruct (tsx_drag_draw s' r0 r1 e0 e1 ms Hdr) as [c' ->].
        by eexists.
      * destruct (tsx_shape_tool (tool s) Hdr Hi) as (tl & Hl & Hmk).
        destruct (Hmk (getPos r0 e0) (getPos r1 e1)) as (el & Hel & _).
        destruct (tsx_drag_shape s' r0 r1 e0 e1 ms tl el Hdr Hl Hel)
          as [c' ->].
        by exists el.
  - eexists. split; [reflexivity |]. split_and!; try done.
    + intros evs s1 Hnc Hrun.
      destruct (jsx_run_document_independent evs s
                  (Jsx.setElements (λ _, []) s)
                  s1 Hnc eq_refl eq_refl Hrun)
        as (s2 & d & Hs2 & Htool & Hdrag & Hels & Hd).
      exists s2. simpl in Hd. by rewrite Hd.
    + intros Hi r0 e0 ms r1 e1.
      set (s' := Jsx.setElements (λ _, []) s).
      destruct (decide (tool s = draw)) as [Hdr | Hdr].
      * destruct (jsx_drag_draw s' r0 r1 e0 e1 ms Hdr) as [c' ->].
        by eexists.
      * destruct (jsx_makeShapeElement_started (tool s) (getPos r0 e0)
                    (getPos r1 e1) Hdr Hi) as (el & Hel & _).
        destruct (jsx_drag_shape s' r0 r1 e0 e1 ms el Hdr Hel) as [c' ->].
        by exists el.
Qed.

Lemma C8_clear_witness :
  ∃ s', Tsx.clear (with_tool initial line) = Some s'
        ∧ elements s' = []
        ∧ tool s' = line
        ∧ ∃ el, elements <$> Tsx.run (drag origin (at_ 5 5) []
                                           origin (at_ 5 5)) s'
                = Some [el].
Proof.
  destruct (C8_clear (with_tool initial line))
    as [(s' & Hclear & Hels & Htool & _ & _ & Hdrag) _].
  exists s'. split_and!; [exact Hclear | exact Hels | exact Htool |].
  apply Hdrag. discriminate.
Defined.

(** * Reachable states *)

(** C9. In every reachable state of either revision, every freehand
    element of the document has a path of at least two points. *)
Theorem C9_committed_freehand_paths :
  (∀ s ps, Tsx.reachable s → DrawEl ps ∈ elements s → (2 ≤ length ps)%nat)
  ∧ (∀ s ps, Jsx.reachable s → DrawEl ps ∈ elements s
             → (2 ≤ length ps)%nat).
Proof.
  split; intros s ps Hreach Hin.
  - by apply (tsx_reachable_inv s Hreach).
  - by apply (jsx_reachable_inv s Hreach).
Qed.

Lemma C9_committed_freehand_paths_witness :
  ∃ s ps, Tsx.reachable s ∧ DrawEl ps ∈ elements s ∧ (2 ≤ length ps)%nat.
Proof.
  assert (Hrun : ∃ s, Tsx.mount ≫= Tsx.run [ToolClick 3;
                                            MouseDown origin (at_ 1 1);
                                            MouseUp origin (at_ 2 3)]
                      = Some s
                      ∧ ∃ ps, DrawEl ps ∈ elements s).
  { eexists. split; [vm_compute; reflexivity |].
    eexists. simpl. apply list_elem_of_here. }
  destruct Hrun as (s & Hs & ps & Hin).
  assert (Hreach : Tsx.reachable s) by (eexists; exact Hs).
  exists s, ps. split_and!; [exact Hreach | exact Hin |].
  exact (proj1 C9_committed_freehand_paths s ps Hreach Hin).
Defined.

(** C10. In every reachable state the selected tool is one of the toolbar
    tools rect, circle, line, draw and never image. Hence in Canvas.tsx the
    lookup [TOOL_MAP[t]] succeeds, a shape tool found there always builds an
    element, and no event handler raises; the handlers of the JSX revision
    do not raise either. *)
Theorem C10_tool_always_in_toolbar :
  CanvasTool.id <$> Tsx.TOOLS = [rect; circle; line; draw]
  ∧ Jsx.TOOLS = [rect; circle; line; draw]
  ∧ (∀ s, Tsx.reachable s →
       tool s ∈ (CanvasTool.id <$> Tsx.TOOLS)
       ∧ tool s ≠ image
       ∧ (∃ tl, Tsx.TOOL_MAP !! tool s = Some tl
                ∧ (tool s ≠ draw →
                   ∀ p q, is_Some (CanvasTool.makeElement tl p q)))
       ∧ (∀ r e, is_Some (Tsx.onMouseMove r e s)
                 ∧ is_Some (Tsx.onMouseUp r e s))
       ∧ (∀ ev, is_Some (Tsx.handle ev s)))
  ∧ (∀ s, Jsx.reachable s →
       tool s ∈ Jsx.TOOLS
       ∧ tool s ≠ image
       ∧ (∀ ev, is_Some (Jsx.handle ev s))).
Proof.
  assert (Hin : ∀ t, t ≠ image → t ∈ [rect; circle; line; draw]).
  { intros t Ht. destruct t; try done; set_solver. }
  split_and!; try done.
  - intros s Hreach.
    pose proof (tsx_reachable_inv s Hreach) as Hinv.
    destruct Hinv as (Hi & Hd & Hl).
    assert (Hev : ∀ ev, is_Some (Tsx.handle ev s)).
    { intros ev.
      destruct (tsx_handle_inv ev s) as (s' & -> & _); by eauto. }
    split_and!; try done.
    + by apply Hin.
    + rewrite tool_map_lookup.
      destruct (tool s) eqn:Ht; try done; eexists;
        (split; [done |]); intros Hnd p q; try done; by eexists.
    + intros r e. split; [apply (Hev (MouseMove r e)) |
                          apply (Hev (MouseUp r e))].
  - intros s Hreach.
    pose proof (jsx_reachable_inv s Hreach) as Hinv.
    destruct Hinv as (Hi & Hd & Hl).
    split_and!; try done.
    + by apply Hin.
    + intros ev.
      destruct (jsx_handle_inv ev s) as (s' & -> & _); by eauto.
Qed.

Lemma C10_tool_always_in_toolbar_witness :
  ∃ s, Tsx.reachable s ∧ tool s ≠ image
       ∧ is_Some (Tsx.onMouseUp origin (at_ 2 3) s).
Proof.
  assert (Hrun : ∃ s, Tsx.mount ≫= Tsx.run [ToolClick 1;
                                            MouseDown origin (at_ 1 1)]
                      = Some s).
  { eexists. vm_compute. reflexivity. }
  destruct Hrun as (s & Hs).
  assert (Hreach : Tsx.reachable s) by (eexists; exact Hs).
  destruct C10_tool_always_in_toolbar as (_ & _ & Htsx & _).
  destruct (Htsx s Hreach) as (_ & Hne & _ & Hmouse & _).
  exists s. split_and!; [exact Hreach | exact Hne | apply Hmouse].
Defined.

(** * Further properties of rendering *)

Section RenderingFacts.

Implicit Types (c : CanvasRenderingContext2D) (el : CanvasElement).

Lemma foldl_lineTo_eq (ps : list Point) c :
  foldl (λ c p, Ctx.lineTo c (x p) (y p)) c ps
  = Ctx.with_path c (currentPath c ++ (line_to <$> ps)).
Proof.
  revert c. induction ps as [| p ps IH]; intros c.
  - simpl. rewrite app_nil_r. by destruct c.
  - simpl. rewrite IH. unfold Ctx.lineTo, Ctx.with_path. simpl.
    by rewrite <- app_assoc.
Qed.

Lemma short_stroke_dec el : short_stroke el ∨ ¬ short_stroke el.
Proof.
  destruct el as [? ? ? ?|? ? ? ?|? ? ? ?|ps|? ? ? ? ?];
    try (right; intros (ps & [=] & _)).
  destruct (decide (length ps < 2)%nat) as [H | H].
  - left. by exists ps.
  - right. intros (ps' & [= <-] & ?). done.
Qed.

Lemma not_short_stroke el :
  ¬ short_stroke el ↔ ∀ ps, el = DrawEl ps → (2 ≤ length ps)%nat.
Proof.
  split.
  - intros H ps ->. destruct (decide (2 ≤ length ps)%nat); [done |].
    destruct H. exists ps. split; [done | lia].
  - intros H (ps & -> & Hlt). specialize (H ps eq_refl). lia.
Qed.

(** What the JSX [drawElement] adds to the surface. *)
Lemma jsx_drawElement_surface c el :
  surface (Jsx.drawElement c el) = surface c ++ painted el.
Proof.
  unfold painted, Jsx.drawElement.
  destruct el as [? ? ? ?|? ? ? ?|? ? ? ?|ps|? ? ? ? ?];
    cbn [Jsx.drawElement_body];
    try (simpl; by rewrite <- ?app_assoc).
  destruct (length ps <? 2)%nat; [simpl; by rewrite app_nil_r |].
  destruct ps as [| p0 rest]; [simpl; by rewrite app_nil_r |].
  rewrite !foldl_lineTo_eq. simpl. done.
Qed.

(** Canvas.tsx [drawElement] in full: it succeeds, restores, and adds the
    same paint operations as the JSX revision. *)
Lemma tsx_drawElement_full c el :
  ∃ c', Tsx.drawElement c el = Some c'
        ∧ state c' = state c ∧ saved c' = saved c
        ∧ surface c' = surface c ++ painted el.
Proof.
  destruct (tsx_drawElement_restores c el) as (c' & Hc' & Hst & Hsv).
  exists c'. split_and!; try done.
  rewrite <- jsx_drawElement_surface.
  unfold Tsx.drawElement, Jsx.drawElement in *.
  destruct el as [? ? ? ?|? ? ? ?|? ? ? ?|ps|? ? ? ? ?];
    try rewrite tool_map_lookup in Hc';
    cbn [type mbind option_bind CanvasTool.draw Tsx.RectTool Tsx.CircleTool
         Tsx.LineTool Tsx.FreehandTool Jsx.drawElement_body] in *;
    try (injection Hc' as <-; reflexivity).
  destruct (length ps <? 2)%nat; [by injection Hc' as <- |].
  destruct ps as [| p0 rest]; by injection Hc' as <-.
Qed.

(** On every element but a short freehand stroke the two revisions of
    [drawElement] return the same context. *)
Lemma tsx_jsx_drawElement c el :
  ¬ short_stroke el → Tsx.drawElement c el = Some (Jsx.drawElement c el).
Proof.
  intros Hlong. pose proof (proj1 (not_short_stroke el) Hlong) as Hlen. clear Hlong. rename Hlen into Hlong.
  unfold Tsx.drawElement, Jsx.drawElement.
  destruct el as [? ? ? ?|? ? ? ?|? ? ? ?|ps|? ? ? ? ?];
    try rewrite tool_map_lookup;
    cbn [type mbind option_bind CanvasTool.draw Tsx.RectTool Tsx.CircleTool
         Tsx.LineTool Tsx.FreehandTool Jsx.drawElement_body];
    try reflexivity.
  specialize (Hlong ps eq_refl).
  destruct (Nat.ltb_spec (length ps) 2) as [? | _]; [lia |].
  destruct ps as [| p0 rest]; [simpl in Hlong; lia | reflexivity].
Qed.

Lemma painted_no_clear el :
  Forall (λ p, clears_canvas p = false) (painted el).
Proof.
  unfold painted, Jsx.drawElement.
  destruct el as [? ? ? ?|? ? ? ?|? ? ? ?|ps|? ? ? ? ?];
    cbn [Jsx.drawElement_body]; try (simpl; by repeat constructor).
  destruct (length ps <? 2)%nat; [by constructor |].
  destruct ps as [| p0 rest]; [by constructor |].
  rewrite foldl_lineTo_eq. simpl. by repeat constructor.
Qed.

Lemma visible_from_app (acc l1 l2 : list Paint) :
  visible_from acc (l1 ++ l2) = visible_from (visible_from acc l1) l2.
Proof.
  revert acc. induction l1 as [| p l1 IH]; intros acc; [done |].
  simpl. destruct (clears_canvas p); apply IH.
Qed.

Lemma visible_from_no_clear (acc l : list Paint) :
  Forall (λ p, clears_canvas p = false) l → visible_from acc l = acc ++ l.
Proof.
  intros H. revert acc. induction H as [| p l Hp _ IH]; intros acc.
  - by rewrite app_nil_r.
  - simpl. rewrite Hp, IH. by rewrite <- app_assoc.
Qed.

Lemma jsx_foldl_drawElement_surface (els : list CanvasElement) c :
  surface (foldl Jsx.drawElement c els)
  = surface c ++ concat (painted <$> els).
Proof.
  revert c. induction els as [| el els IH]; intros c.
  - simpl. by rewrite app_nil_r.
  - simpl. rewrite IH, jsx_drawElement_surface. by rewrite <- app_assoc.
Qed.

Lemma tsx_forEach_drawElement_full (els : list CanvasElement) c :
  ∃ c', forEach Tsx.drawElement c els = Some c'
        ∧ state c' = state c ∧ saved c' = saved c
        ∧ surface c' = surface c ++ concat (painted <$> els).
Proof.
  revert c. induction els as [| el els IH]; intros c.
  - exists c. simpl. by rewrite app_nil_r.
  - destruct (tsx_drawElement_full c el) as (c1 & Hc1 & Hst1 & Hsv1 & Hsf1).
    destruct (IH c1) as (c2 & Hc2 & Hst2 & Hsv2 & Hsf2).
    exists c2. simpl. rewrite Hc1. simpl. split_and!; try congruence.
    rewrite Hsf2, Hsf1. by rewrite <- app_assoc.
Qed.

Lemma concat_painted_no_clear (els : list CanvasElement) :
  Forall (λ p, clears_canvas p = false) (concat (painted <$> els)).
Proof.
  induction els as [| el els IH]; [by constructor |].
  simpl. apply Forall_app. split; [apply painted_no_clear | done].
Qed.

End RenderingFacts.

(** X1. [drawElement] of Canvas.tsx never fails: the lookup in [TOOL_MAP]
    finds a tool and that tool receives the variant it draws; afterwards
    the drawing state and the stack of saved states are what they were.
    The same holds for drawing a whole list of elements in sequence. *)
Theorem X1_tsx_drawElement_safe (c : CanvasRenderingContext2D)
    (els : list CanvasElement) :
  (∀ el, ∃ c', Tsx.drawElement c el = Some c'
               ∧ state c' = state c ∧ saved c' = saved c)
  ∧ ∃ c', forEach Tsx.drawElement c els = Some c'
          ∧ state c' = state c ∧ saved c' = saved c.
Proof.
  split.
  - intros el. apply tsx_drawElement_restores.
  - destruct (tsx_forEach_drawElement_full els c)
      as (c' & Hc' & Hst & Hsv & _).
    by exists c'.
Qed.

(** X2. [drawElement] of the JSX revision hands back the drawing state and
    the stack of saved states unchanged exactly when the element is not a
    freehand stroke of fewer than two points. *)
Theorem X2_jsx_drawElement_restores_iff (c : CanvasRenderingContext2D)
    (el : CanvasElement) :
  state (Jsx.drawElement c el) = state c
  ∧ saved (Jsx.drawElement c el) = saved c
  ↔ ¬ short_stroke el.
Proof.
  split.
  - intros [_ Hsv] (ps & -> & Hlen).
    unfold Jsx.drawElement in Hsv. cbn [Jsx.drawElement_body] in Hsv.
    destruct (Nat.ltb_spec (length ps) 2) as [_ | ?]; [| lia].
    simpl in Hsv. apply (f_equal length) in Hsv. simpl in Hsv. lia.
  - intros Hlong. apply jsx_drawElement_restores.
    by apply not_short_stroke.
Qed.

(** X3. What [drawElement] paints depends on the element alone: on any
    context (whatever its styles, its saved states and the path left by an
    earlier call) both revisions add to the surface exactly the operations
    they add on a new context. *)
Theorem X3_painting_depends_on_element_only (c : CanvasRenderingContext2D)
    (el : CanvasElement) :
  surface (Jsx.drawElement c el) = surface c ++ painted el
  ∧ surface <$> Tsx.drawElement c el = Some (surface c ++ painted el).
Proof.
  split; [apply jsx_drawElement_surface |].
  destruct (tsx_drawElement_full c el) as (c' & -> & _ & _ & Hsf).
  simpl. by rewrite Hsf.
Qed.

(** X4. What each variant paints, with the fixed stroke colour, width 2 and
    fill colour: a rect and a circle are filled and then stroked, a line is
    stroked only, an image is blitted into its rectangle; a freehand stroke
    of at least two points is one stroked polyline through its points in
    order, and a shorter one paints nothing. *)
Theorem X4_painted_by_variant :
  (∀ ex ey ew eh,
     painted (RectEl ex ey ew eh)
     = [Filled [SubRect ex ey ew eh] (fillStyle element_style);
        Stroked [SubRect ex ey ew eh] (strokeStyle element_style)
                (lineWidth element_style)])
  ∧ (∀ ecx ecy erx ery,
       painted (CircleEl ecx ecy erx ery)
       = [Filled [SubEllipse ecx ecy erx ery] (fillStyle element_style);
          Stroked [SubEllipse ecx ecy erx ery] (strokeStyle element_style)
                  (lineWidth element_style)])
  ∧ (∀ ex1 ey1 ex2 ey2,
       painted (LineEl ex1 ey1 ex2 ey2)
       = [Stroked [SubMoveTo ex1 ey1; SubLineTo ex2 ey2]
                  (strokeStyle element_style) (lineWidth element_style)])
  ∧ (∀ eimg ex ey ew eh,
       painted (ImageEl eimg ex ey ew eh) = [Blitted eimg ex ey ew eh])
  ∧ (∀ p0 p1 rest,
       painted (DrawEl (p0 :: p1 :: rest))
       = [Stroked (SubMoveTo (x p0) (y p0) :: (line_to <$> p1 :: rest))
                  (strokeStyle element_style) (lineWidth element_style)])
  ∧ (∀ ps, (length ps < 2)%nat → painted (DrawEl ps) = []).
Proof.
  split_and!; try done.
  - intros p0 p1 rest. unfold painted, Jsx.drawElement.
    cbn [Jsx.drawElement_body length Nat.ltb Nat.leb].
    rewrite foldl_lineTo_eq. reflexivity.
  - intros ps Hlen. unfold painted, Jsx.drawElement.
    cbn [Jsx.drawElement_body].
    destruct (Nat.ltb_spec (length ps) 2) as [_ | ?]; [done | lia].
Qed.

(** What [redraw] leaves on the canvas. *)
Lemma redraw_surface_visible (before shown : list Paint) :
  Forall (λ p, clears_canvas p = false) shown →
  visible_from [] ((before ++ [Cleared (of_Z 0) (of_Z 0)
                                 canvas_width canvas_height])
                   ++ shown) = shown.
Proof.
  intros H. rewrite !visible_from_app. simpl.
  by apply visible_from_no_clear.
Qed.

Lemma shown_no_clear (els : list CanvasElement)
    (draft : option CanvasElement) :
  Forall (λ p, clears_canvas p = false)
         (concat (painted <$> els) ++ from_option painted [] draft).
Proof.
  apply Forall_app. split; [apply concat_painted_no_clear |].
  destruct draft; [apply painted_no_clear | constructor].
Qed.

Lemma tsx_redraw_full (draft : option CanvasElement) (s : State) :
  ∃ s', Tsx.redraw draft s = Some s'
        ∧ elements s' = elements s ∧ tool s' = tool s
        ∧ drawingRef s' = drawingRef s
        ∧ state (ctx s') = state (ctx s) ∧ saved (ctx s') = saved (ctx s)
        ∧ visible (ctx s')
          = concat (painted <$> elements s) ++ from_option painted [] draft.
Proof.
  unfold Tsx.redraw.
  destruct (tsx_forEach_drawElement_full (elements s)
              (Ctx.clearRect (ctx s) (of_Z 0) (of_Z 0)
                             canvas_width canvas_height))
    as (c1 & -> & Hst1 & Hsv1 & Hsf1).
  simpl in Hst1, Hsv1, Hsf1. cbn [mbind option_bind].
  destruct draft as [d |].
  - destruct (tsx_drawElement_full c1 d) as (c2 & -> & Hst2 & Hsv2 & Hsf2).
    eexists. split; [reflexivity |]. split_and!; try done.
    + simpl. congruence.
    + simpl. congruence.
    + unfold visible. simpl. rewrite Hsf2, Hsf1.
      rewrite <- app_assoc.
      apply redraw_surface_visible, (shown_no_clear _ (Some d)).
  - eexists. split; [reflexivity |]. split_and!; try done.
    unfold visible. simpl. rewrite Hsf1, app_nil_r.
    apply redraw_surface_visible, concat_painted_no_clear.
Qed.

Lemma jsx_redraw_visible (draft : option CanvasElement) (s : State) :
  visible (ctx (Jsx.redraw draft s))
  = concat (painted <$> elements s) ++ from_option painted [] draft.
Proof.
  unfold visible, Jsx.redraw. destruct draft as [d |]; simpl.
  - rewrite jsx_drawElement_surface, jsx_foldl_drawElement_surface. simpl.
    rewrite <- app_assoc.
    apply redraw_surface_visible, (shown_no_clear _ (Some d)).
  - rewrite jsx_foldl_drawElement_surface, app_nil_r. simpl.
    apply redraw_surface_visible, concat_painted_no_clear.
Qed.

(** X5. [redraw] changes nothing but the canvas, and what the canvas shows
    afterwards is the document in order with the draft, if any, on top,
    whatever was on it before. In Canvas.tsx the context styles and saved
    states are also left as they were. *)
Theorem X5_redraw_shows_document (draft : option CanvasElement) (s : State) :
  let shown := concat (painted <$> elements s) ++ from_option painted [] draft in
  (∃ s', Tsx.redraw draft s = Some s'
         ∧ elements s' = elements s ∧ tool s' = tool s
         ∧ drawingRef s' = drawingRef s
         ∧ state (ctx s') = state (ctx s) ∧ saved (ctx s') = saved (ctx s)
         ∧ visible (ctx s') = shown)
  ∧ elements (Jsx.redraw draft s) = elements s
  ∧ tool (Jsx.redraw draft s) = tool s
  ∧ drawingRef (Jsx.redraw draft s) = drawingRef s
  ∧ visible (ctx (Jsx.redraw draft s)) = shown.
Proof.
  intros shown. split; [apply tsx_redraw_full |].
  split_and!; try done. apply jsx_redraw_visible.
Qed.

(** * Further properties of the controller *)

(** Close a step that appends the at most one element of [d]. *)
Ltac appends d :=
  simpl in *;
  match goal with
  | H : Some _ = Some _ |- _ =>
      injection H as <-; exists d; simpl;
      rewrite ?app_nil_r; split; [reflexivity | simpl; lia]
  end.

Section ControllerFacts.

Implicit Types (s : State) (r : DOMRect) (e : MouseEvent).

(** Replace the calls of [redraw] and [setElements] of Canvas.tsx in a
    hypothesis by their results. *)
Ltac tsx_effects :=
  repeat match goal with
  | H : context [Tsx.setElements ?f ?s] |- _ =>
      let c := fresh "c" in let E := fresh "E" in
      destruct (tsx_setElements_Some f s) as [c E]; rewrite E in H; clear E
  | H : context [Tsx.redraw ?d ?s] |- _ =>
      let c := fresh "c" in let E := fresh "E" in
      destruct (tsx_redraw_Some d s) as [c E]; rewrite E in H; clear E
  end.

Lemma tsx_onMouseUp_result r e s s' :
  Tsx.onMouseUp r e s = Some s' →
  active (drawingRef s') = false
  ∧ tool s' = tool s
  ∧ start (drawingRef s') = start (drawingRef s)
  ∧ ∃ d, elements s' = elements s ++ d ∧ (length d ≤ 1)%nat.
Proof.
  intros H. destruct s as [els ts ds cs].
  unfold Tsx.onMouseUp in H. simpl in H.
  destruct (active ds) eqn:Ha; simpl in H.
  - destruct (decide (ts = draw)).
    + tsx_effects. injection H as <-. simpl. split_and!; try done.
      eexists. split; [reflexivity | simpl; lia].
    + destruct (start ds); [| injection H as <-; simpl; split_and!; try done;
                              exists []; rewrite app_nil_r;
                              split; [done | simpl; lia]].
      destruct (Tsx.TOOL_MAP !! ts) as [tl |]; [| done]. simpl in H.
      destruct (CanvasTool.makeElement tl p (getPos r e)) as [el |].
      * tsx_effects. injection H as <-. simpl. split_and!; try done.
        eexists. split; [reflexivity | simpl; lia].
      * injection H as <-. simpl. split_and!; try done.
        exists []. rewrite app_nil_r. split; [done | simpl; lia].
  - injection H as <-. simpl. split_and!; try done.
    exists []. rewrite app_nil_r. split; [done | simpl; lia].
Qed.

Lemma jsx_onMouseUp_result r e s s' :
  Jsx.onMouseUp r e s = Some s' →
  active (drawingRef s') = false
  ∧ tool s' = tool s
  ∧ start (drawingRef s') = start (drawingRef s)
  ∧ ∃ d, elements s' = elements s ++ d ∧ (length d ≤ 1)%nat.
Proof.
  intros H. destruct s as [els ts ds cs].
  unfold Jsx.onMouseUp in H. simpl in H.
  destruct (active ds) eqn:Ha; simpl in H.
  - destruct (decide (ts = draw)).
    + injection H as <-. simpl. split_and!; try done.
      eexists. split; [reflexivity | simpl; lia].
    + destruct (Jsx.makeShapeElement ts (start ds) (getPos r e))
        as [[el |] |]; [| | done].
      * injection H as <-. simpl. split_and!; try done.
        eexists. split; [reflexivity | simpl; lia].
      * injection H as <-. simpl. split_and!; try done.
        exists []. rewrite app_nil_r. split; [done | simpl; lia].
  - injection H as <-. simpl. split_and!; try done.
    exists []. rewrite app_nil_r. split; [done | simpl; lia].
Qed.

Lemma tsx_onMouseMove_result r e s s' :
  Tsx.onMouseMove r e s = Some s' →
  elements s' = elements s ∧ tool s' = tool s
  ∧ drawingRef s'
    = if active (drawingRef s) && bool_decide (tool s = draw)
      then push (drawingRef s) (getPos r e) else drawingRef s.
Proof.
  intros H. destruct s as [els ts ds cs].
  unfold Tsx.onMouseMove in H. simpl in *.
  destruct (active ds) eqn:Ha; simpl in *; [| by injection H as <-].
  destruct (decide (ts = draw)) as [Hd | Hd].
  - rewrite bool_decide_eq_true_2 by done.
    tsx_effects. by injection H as <-.
  - rewrite bool_decide_eq_false_2 by done.
    destruct (start ds); [| by injection H as <-].
    destruct (Tsx.TOOL_MAP !! ts) as [tl |]; [| done]. simpl in H.
    tsx_effects. by injection H as <-.
Qed.

Lemma jsx_onMouseMove_result r e s s' :
  Jsx.onMouseMove r e s = Some s' →
  elements s' = elements s ∧ tool s' = tool s
  ∧ drawingRef s'
    = if active (drawingRef s) && bool_decide (tool s = draw)
      then push (drawingRef s) (getPos r e) else drawingRef s.
Proof.
  intros H. destruct s as [els ts ds cs].
  unfold Jsx.onMouseMove in H. simpl in *.
  destruct (active ds) eqn:Ha; simpl in *; [| by injection H as <-].
  destruct (decide (ts = draw)) as [Hd | Hd].
  - rewrite bool_decide_eq_true_2 by done. by injection H as <-.
  - rewrite bool_decide_eq_false_2 by done.
    destruct (Jsx.makeShapeElement ts (start ds) (getPos r e));
      [by injection H as <- | done].
Qed.

(** One event other than a clear appends at most one element. *)
Lemma tsx_handle_appends (ev : Event) s s' :
  ev ≠ ClearClick → Tsx.handle ev s = Some s' →
  ∃ d, elements s' = elements s ++ d ∧ (length d ≤ 1)%nat.
Proof.
  intros Hev H.
  destruct ev as [r e | r e | r e | r e | i | | img]; try done;
    cbn [Tsx.handle] in H.
  - unfold Tsx.onMouseDown in H. appends (@nil CanvasElement).
  - apply tsx_onMouseMove_result in H as (-> & _).
    exists []. rewrite app_nil_r. split; [done | simpl; lia].
  - by apply tsx_onMouseUp_result in H as (_ & _ & _ & ?).
  - by apply tsx_onMouseUp_result in H as (_ & _ & _ & ?).
  - unfold Tsx.onToolClick, Tsx.setTool in H.
    destruct (Tsx.TOOLS !! i); appends (@nil CanvasElement).
  - unfold Tsx.onload in H. tsx_effects. injection H as <-. simpl.
    eexists. split; [reflexivity | simpl; lia].
Qed.

Lemma jsx_handle_appends (ev : Event) s s' :
  ev ≠ ClearClick → Jsx.handle ev s = Some s' →
  ∃ d, elements s' = elements s ++ d ∧ (length d ≤ 1)%nat.
Proof.
  intros Hev H.
  destruct ev as [r e | r e | r e | r e | i | | img]; try done;
    cbn [Jsx.handle] in H.
  - unfold Jsx.onMouseDown in H. appends (@nil CanvasElement).
  - apply jsx_onMouseMove_result in H as (-> & _).
    exists []. rewrite app_nil_r. split; [done | simpl; lia].
  - by apply jsx_onMouseUp_result in H as (_ & _ & _ & ?).
  - by apply jsx_onMouseUp_result in H as (_ & _ & _ & ?).
  - unfold Jsx.onToolClick, Jsx.setTool in H.
    destruct (Jsx.TOOLS !! i); appends (@nil CanvasElement).
  - unfold Jsx.onload in H. injection H as <-. simpl.
    eexists. split; [reflexivity | simpl; lia].
Qed.

End ControllerFacts.

(** X6. A release ends the drag: after a handled pointer-up or
    pointer-leave the drag is inactive, so a second release (the
    pointer-leave that follows a pointer-up, say) changes nothing and
    commits nothing more. *)
Theorem X6_release_ends_drag (s s' : State) (r r' : DOMRect)
    (e e' : MouseEvent) :
  (Tsx.onMouseUp r e s = Some s' →
   active (drawingRef s') = false
   ∧ Tsx.handle (MouseUp r' e') s' = Some s'
   ∧ Tsx.handle (MouseLeave r' e') s' = Some s')
  ∧ (Jsx.onMouseUp r e s = Some s' →
     active (drawingRef s') = false
     ∧ Jsx.handle (MouseUp r' e') s' = Some s'
     ∧ Jsx.handle (MouseLeave r' e') s' = Some s').
Proof.
  split; intros H.
  - apply tsx_onMouseUp_result in H as (Ha & _). simpl.
    by rewrite tsx_onMouseUp_inactive.
  - apply jsx_onMouseUp_result in H as (Ha & _). simpl.
    by rewrite jsx_onMouseUp_inactive.
Qed.

Lemma X6_release_ends_drag_witness :
  ∃ s', Tsx.run (drag origin (at_ 1 1) [] origin (at_ 4 5)) initial = Some s'
        ∧ active (drawingRef s') = false
        ∧ Tsx.handle (MouseLeave origin (at_ 9 9)) s' = Some s'.
Proof.
  assert (Hrun : ∃ s1 s',
    Tsx.onMouseDown origin (at_ 1 1) initial = Some s1
    ∧ Tsx.onMouseUp origin (at_ 4 5) s1 = Some s').
  { eexists _, _. split; [reflexivity |]. vm_compute. reflexivity. }
  destruct Hrun as (s1 & s' & Hs1 & Hs').
  exists s'.
  destruct (proj1 (X6_release_ends_drag s1 s' origin origin
                     (at_ 4 5) (at_ 9 9)) Hs') as (Ha & _ & Hleave).
  split_and!; [| exact Ha | exact Hleave].
  unfold drag. simpl. injection Hs1 as <-. exact Hs'.
Defined.

(** X7. A pointer move never touches the document or the tool: the draft
    it shows is not committed. Of the drag record it changes only the path,
    and only during an active drag with the freehand tool, by pushing the
    pointer position. *)
Theorem X7_move_commits_nothing (s s' : State) (r : DOMRect)
    (e : MouseEvent) :
  let after :=
    if active (drawingRef s) && bool_decide (tool s = draw)
    then push (drawingRef s) (getPos r e) else drawingRef s in
  (Tsx.onMouseMove r e s = Some s' →
   elements s' = elements s ∧ tool s' = tool s ∧ drawingRef s' = after)
  ∧ (Jsx.onMouseMove r e s = Some s' →
     elements s' = elements s ∧ tool s' = tool s ∧ drawingRef s' = after).
Proof.
  intros after. split; intros H.
  - by apply tsx_onMouseMove_result in H.
  - by apply jsx_onMouseMove_result in H.
Qed.

(** X8. Without a clear the document only grows at its end: after any
    sequence of events that holds no clear, the old document is a prefix of
    the new one (committed elements are never changed, dropped or
    reordered), and each event added at most one element. *)
Theorem X8_document_append_only (evs : list Event) (s s' : State) :
  ClearClick ∉ evs →
  (Tsx.run evs s = Some s' →
   ∃ d, elements s' = elements s ++ d ∧ (length d ≤ length evs)%nat)
  ∧ (Jsx.run evs s = Some s' →
     ∃ d, elements s' = elements s ++ d ∧ (length d ≤ length evs)%nat).
Proof.
  intros Hnc. split.
  - revert s Hnc. induction evs as [| ev evs IH]; intros s Hnc H.
    + injection H as <-. exists []. rewrite app_nil_r.
      split; [done | simpl; lia].
    + apply not_elem_of_cons in Hnc as [Hne Hnc]. simpl in H.
      destruct (Tsx.handle ev s) as [s1 |] eqn:Hs1; [| done].
      destruct (tsx_handle_appends ev s s1 (not_eq_sym Hne) Hs1)
        as (d1 & Hd1 & Hl1).
      destruct (IH s1 Hnc H) as (d2 & Hd2 & Hl2).
      exists (d1 ++ d2). rewrite Hd2, Hd1, <- app_assoc, length_app.
      split; [done | simpl; lia].
  - revert s Hnc. induction evs as [| ev evs IH]; intros s Hnc H.
    + injection H as <-. exists []. rewrite app_nil_r.
      split; [done | simpl; lia].
    + apply not_elem_of_cons in Hnc as [Hne Hnc]. simpl in H.
      destruct (Jsx.handle ev s) as [s1 |] eqn:Hs1; [| done].
      destruct (jsx_handle_appends ev s s1 (not_eq_sym Hne) Hs1)
        as (d1 & Hd1 & Hl1).
      destruct (IH s1 Hnc H) as (d2 & Hd2 & Hl2).
      exists (d1 ++ d2). rewrite Hd2, Hd1, <- app_assoc, length_app.
      split; [done | simpl; lia].
Qed.

Lemma X8_document_append_only_witness :
  ∃ s', Jsx.run [MouseDown origin (at_ 1 1); MouseMove origin (at_ 2 2);
                 MouseUp origin (at_ 4 5)] initial = Some s'
        ∧ ∃ d, elements s' = elements initial ++ d ∧ (length d ≤ 3)%nat.
Proof.
  eexists. split; [vm_compute; reflexivity |].
  refine (proj2 (X8_document_append_only
                   [MouseDown origin (at_ 1 1); MouseMove origin (at_ 2 2);
                    MouseUp origin (at_ 4 5)] initial _ _) _).
  - intros H. repeat (apply elem_of_cons in H as [H | H]; [discriminate |]).
    by apply elem_of_nil in H.
  - vm_compute. reflexivity.
Defined.

(** * Failures and the agreement of the two revisions *)

Section Revisions.

Implicit Types (s : State) (r : DOMRect) (e : MouseEvent).

Lemma tsx_onMouseUp_no_start r e s :
  active (drawingRef s) = true → tool s ≠ draw →
  start (drawingRef s) = None →
  is_Some (Tsx.onMouseUp r e s) ∧ is_Some (Tsx.onMouseMove r e s).
Proof.
  intros Ha Hd Hs. unfold Tsx.onMouseUp, Tsx.onMouseMove.
  rewrite Ha. cbn [negb]. rewrite !decide_False by done.
  cbn [drawingRef with_drawingRef set_active start]. rewrite Hs.
  split; by eexists.
Qed.

Lemma tsx_handlers_image r e s :
  active (drawingRef s) = true → tool s = image →
  is_Some (start (drawingRef s)) →
  Tsx.onMouseUp r e s = None ∧ Tsx.onMouseMove r e s = None.
Proof.
  intros Ha Ht [p Hp]. unfold Tsx.onMouseUp, Tsx.onMouseMove.
  rewrite Ha, Ht. cbn [negb]. rewrite !decide_False by done.
  cbn [drawingRef with_drawingRef set_active start tool].
  rewrite Hp, tool_map_lookup. done.
Qed.

Lemma jsx_handlers_no_start r e s :
  active (drawingRef s) = true → tool s ∈ [rect; circle; line] →
  start (drawingRef s) = None →
  Jsx.onMouseUp r e s = None ∧ Jsx.onMouseMove r e s = None.
Proof.
  intros Ha Ht Hs. unfold Jsx.onMouseUp, Jsx.onMouseMove.
  rewrite Ha. cbn [negb].
  cbn [drawingRef with_drawingRef set_active start tool]. rewrite Hs.
  repeat (apply elem_of_cons in Ht as [-> | Ht]; [done |]).
  by apply elem_of_nil in Ht.
Qed.

Lemma jsx_handlers_undefined r e s :
  active (drawingRef s) = true → tool s = image →
  is_Some (Jsx.onMouseUp r e s) ∧ is_Some (Jsx.onMouseMove r e s).
Proof.
  intros Ha Ht. unfold Jsx.onMouseUp, Jsx.onMouseMove.
  rewrite Ha, Ht. cbn [negb]. split; by eexists.
Qed.

(** The two revisions of [makeElement]. *)
Lemma tsx_jsx_makeElement (t : ToolId) (tl : CanvasTool.t) (p q : Point) :
  t ≠ draw → Tsx.TOOL_MAP !! t = Some tl →
  Jsx.makeShapeElement t (Some p) q
  = Some (CanvasTool.makeElement tl p q).
Proof.
  intros Hd Hl. rewrite tool_map_lookup in Hl.
  destruct t; try done; by injection Hl as <-.
Qed.

Lemma tsx_jsx_forEach (els : list CanvasElement)
    (c : CanvasRenderingContext2D) :
  long_strokes els →
  forEach Tsx.drawElement c els = Some (foldl Jsx.drawElement c els).
Proof.
  revert c. induction els as [| el els IH]; intros c Hl; [done |].
  simpl. rewrite tsx_jsx_drawElement.
  - simpl. apply IH. intros ps Hin. apply Hl. by right.
  - apply not_short_stroke. intros ps ->. apply Hl. by left.
Qed.

Lemma tsx_jsx_redraw (draft : option CanvasElement) s :
  long_strokes (elements s) →
  (∀ ps, draft = Some (DrawEl ps) → (2 ≤ length ps)%nat) →
  Tsx.redraw draft s = Some (Jsx.redraw draft s).
Proof.
  intros Hl Hd. unfold Tsx.redraw, Jsx.redraw.
  rewrite tsx_jsx_forEach by done. cbn [mbind option_bind].
  destruct draft as [d |]; [| done].
  rewrite tsx_jsx_drawElement; [done |].
  apply not_short_stroke. intros ps ->. by apply Hd.
Qed.

Lemma tsx_jsx_setElements
    (f : list CanvasElement → list CanvasElement) s :
  long_strokes (f (elements s)) →
  Tsx.setElements f s = Some (Jsx.setElements f s).
Proof.
  intros Hl. unfold Tsx.setElements, Jsx.setElements.
  by apply tsx_jsx_redraw.
Qed.

(** On a state that satisfies the invariant the two revisions handle every
    event alike, canvas included. *)
Lemma tsx_jsx_handle (ev : Event) s :
  inv s → Tsx.handle ev s = Jsx.handle ev s.
Proof.
  intros (Ht & Hd & Hl).
  assert (Hup : ∀ r e, Tsx.onMouseUp r e s = Jsx.onMouseUp r e s).
  { intros r e. unfold Tsx.onMouseUp, Jsx.onMouseUp.
    destruct (active (drawingRef s)) eqn:Ha; [| done]. cbn [negb].
    destruct (Hd Ha) as [[p Hp] Hne].
    destruct (decide (tool s = draw)) as [Hdr | Hdr].
    - apply tsx_jsx_setElements. simpl.
      apply long_strokes_snoc; [done |].
      intros ps [= <-]. rewrite length_app. simpl.
      destruct (path (drawingRef s)); [done | simpl; lia].
    - cbn [drawingRef with_drawingRef set_active start tool]. rewrite Hp.
      destruct (tsx_shape_tool (tool s) Hdr Ht) as (tl & Hl' & Hmk).
      rewrite Hl'. cbn [mbind option_bind].
      rewrite (tsx_jsx_makeElement (tool s) tl) by done.
      cbn [mbind option_bind].
      destruct (Hmk p (getPos r e)) as (el & -> & Hty).
      apply tsx_jsx_setElements. simpl.
      apply long_strokes_snoc; [done |].
      intros ps ->. simpl in Hty. congruence. }
  destruct ev as [r e | r e | r e | r e | i | | img]; cbn [Tsx.handle Jsx.handle];
    try apply Hup.
  - done.
  - unfold Tsx.onMouseMove, Jsx.onMouseMove.
    destruct (active (drawingRef s)) eqn:Ha; [| done]. cbn [negb].
    destruct (Hd Ha) as [[p Hp] Hne].
    destruct (decide (tool s = draw)) as [Hdr | Hdr].
    + apply tsx_jsx_redraw; [done |].
      intros ps [= <-]. simpl. rewrite length_app. simpl.
      destruct (path (drawingRef s)); [done | simpl; lia].
    + rewrite Hp.
      destruct (tsx_shape_tool (tool s) Hdr Ht) as (tl & Hl' & Hmk).
      rewrite Hl'. cbn [mbind option_bind].
      rewrite (tsx_jsx_makeElement (tool s) tl) by done.
      cbn [mbind option_bind].
      destruct (Hmk p (getPos r e)) as (el & -> & Hty).
      apply tsx_jsx_redraw; [done |].
      intros ps [= ->]. simpl in Hty. congruence.
  - unfold Tsx.onToolClick, Jsx.onToolClick.
    do 4 (destruct i as [| i]; [done |]). done.
  - unfold Tsx.clear, Jsx.clear. apply tsx_jsx_setElements.
    apply long_strokes_nil.
  - unfold Tsx.onload, Jsx.onload. apply tsx_jsx_setElements. simpl.
    by apply long_strokes_snoc.
Qed.

Lemma tsx_jsx_run (evs : list Event) s :
  inv s → Tsx.run evs s = Jsx.run evs s.
Proof.
  revert s. induction evs as [| ev evs IH]; intros s Hinv; [done |].
  simpl. rewrite <- tsx_jsx_handle by done.
  destruct (tsx_handle_inv ev s Hinv) as (s' & -> & Hinv').
  simpl. by apply IH.
Qed.

Lemma tsx_jsx_mount : Tsx.mount = Some Jsx.mount.
Proof.
  apply tsx_jsx_redraw; [apply long_strokes_nil | done].
Qed.

End Revisions.

(** X9. When the pointer handlers raise. In Canvas.tsx a pointer-up (or
    leave) and a pointer-move raise exactly during an active drag with a
    start point while the selected tool is [image], which [TOOL_MAP] does
    not hold; a missing start point is skipped by the [else if (start)]
    guard. In the JSX revision they raise exactly during an active drag
    without a start point while a shape tool is selected; the [image] tool
    just builds nothing there. *)
Theorem X9_pointer_handlers_raise_iff (s : State) (r : DOMRect)
    (e : MouseEvent) :
  let tsx_bad := active (drawingRef s) = true ∧ tool s = image
                 ∧ is_Some (start (drawingRef s)) in
  let jsx_bad := active (drawingRef s) = true
                 ∧ tool s ∈ [rect; circle; line]
                 ∧ start (drawingRef s) = None in
  (Tsx.onMouseUp r e s = None ↔ tsx_bad)
  ∧ (Tsx.onMouseMove r e s = None ↔ tsx_bad)
  ∧ (Jsx.onMouseUp r e s = None ↔ jsx_bad)
  ∧ (Jsx.onMouseMove r e s = None ↔ jsx_bad).
Proof.
  intros tsx_bad jsx_bad.
  assert (Htsx : Tsx.onMouseUp r e s = None ∨ Tsx.onMouseMove r e s = None
                 → tsx_bad).
  { intros H. unfold tsx_bad.
    destruct (active (drawingRef s)) eqn:Ha.
    2:{ rewrite tsx_onMouseUp_inactive, tsx_onMouseMove_inactive in H
          by done. by destruct H. }
    destruct (decide (tool s = draw)) as [Hdr | Hdr].
    { destruct (tsx_onMouseUp_draw r e s Ha Hdr) as [c Hc].
      destruct (tsx_onMouseMove_draw r e s Ha Hdr) as [c' Hc'].
      rewrite Hc, Hc' in H. by destruct H. }
    destruct (start (drawingRef s)) as [p |] eqn:Hs.
    2:{ destruct (tsx_onMouseUp_no_start r e s Ha Hdr Hs)
          as [[? Hu] [? Hm]].
        rewrite Hu, Hm in H. by destruct H. }
    destruct (decide (tool s = image)) as [Hi | Hi]; [by eauto |].
    destruct (tsx_shape_tool (tool s) Hdr Hi) as (tl & Hl & Hmk).
    destruct (Hmk p (getPos r e)) as (el & Hel & _).
    destruct (tsx_onMouseUp_shape r e s p tl el Ha Hdr Hs Hl Hel) as [c Hc].
    destruct (tsx_onMouseMove_shape r e s tl Ha Hdr Hl) as [c' Hc'].
    rewrite Hc, Hc' in H. by destruct H. }
  assert (Hjsx : Jsx.onMouseUp r e s = None ∨ Jsx.onMouseMove r e s = None
                 → jsx_bad).
  { intros H. unfold jsx_bad.
    destruct (active (drawingRef s)) eqn:Ha.
    2:{ rewrite jsx_onMouseUp_inactive, jsx_onMouseMove_inactive in H
          by done. by destruct H. }
    destruct (decide (tool s = draw)) as [Hdr | Hdr].
    { destruct (jsx_onMouseUp_draw r e s Ha Hdr) as [c Hc].
      destruct (jsx_onMouseMove_draw r e s Ha Hdr) as [c' Hc'].
      rewrite Hc, Hc' in H. by destruct H. }
    destruct (decide (tool s = image)) as [Hi | Hi].
    { destruct (jsx_handlers_undefined r e s Ha Hi) as [[? Hu] [? Hm]].
      rewrite Hu, Hm in H. by destruct H. }
    destruct (start (drawingRef s)) as [p |] eqn:Hs.
    { destruct (jsx_makeShapeElement_started (tool s) p (getPos r e)
                  Hdr Hi) as (el & Hel & _).
      destruct (jsx_onMouseUp_shape r e s p el Ha Hdr Hs Hel) as [c Hc].
      destruct (jsx_onMouseMove_shape r e s p Ha Hdr Hs) as [c' Hc'].
      rewrite Hc, Hc' in H. by destruct H. }
    split_and!; try done.
    destruct (tool s); try done;
      [left | right; left | right; right; left]. }
  split_and!; (split; [by eauto |]).
  - intros (Ha & Hi & Hs). by apply tsx_handlers_image.
  - intros (Ha & Hi & Hs). by apply tsx_handlers_image.
  - intros (Ha & Hi & Hs). by apply jsx_handlers_no_start.
  - intros (Ha & Hi & Hs). by apply jsx_handlers_no_start.
Qed.

(** X10. The two revisions behave alike: from mount, every sequence of
    events leads both to the same state (document, tool, drag record and
    canvas), so the same states are reachable; in particular the revisions
    differ on no element that is ever drawn. *)
Theorem X10_revisions_agree :
  (∀ evs, Tsx.mount ≫= Tsx.run evs = Jsx.run evs Jsx.mount)
  ∧ (∀ s, Tsx.reachable s ↔ Jsx.reachable s)
  ∧ (∀ s ev, Tsx.reachable s → Tsx.handle ev s = Jsx.handle ev s).
Proof.
  assert (Hrun : ∀ evs, Tsx.mount ≫= Tsx.run evs = Jsx.run evs Jsx.mount).
  { intros evs. rewrite tsx_jsx_mount. simpl.
    apply tsx_jsx_run, jsx_mount_inv. }
  split_and!; [done | |].
  - intros s. unfold Tsx.reachable, Jsx.reachable.
    split; intros [evs H]; exists evs; [by rewrite <- Hrun | by rewrite Hrun].
  - intros s ev Hreach. by apply tsx_jsx_handle, tsx_reachable_inv.
Qed.

(** * Changing the tool during a drag *)

Section ToolSwitch.

Implicit Types (s : State) (r : DOMRect) (e : MouseEvent).

(** The pointer moves of an active drag, whatever toolbar tool is
    selected: only the freehand tool records them. *)
Lemma tsx_run_moves_drag (ms : list (DOMRect * MouseEvent)) s :
  active (drawingRef s) = true → tool s ≠ image →
  ∃ c, Tsx.run (moves ms) s
       = Some {| elements := elements s; tool := tool s;
                 drawingRef :=
                   {| active := true; start := start (drawingRef s);
                      path := path (drawingRef s)
                              ++ if bool_decide (tool s = draw)
                                 then positions ms else [] |};
                 ctx := c |}.
Proof.
  intros Ha Hi. destruct (decide (tool s = draw)) as [Hd | Hd].
  - rewrite bool_decide_eq_true_2 by done.
    destruct (tsx_run_moves_draw ms s Ha Hd) as [c ->].
    exists c. by rewrite Hd.
  - rewrite bool_decide_eq_false_2 by done.
    destruct (tsx_run_moves_shape ms s Hd Hi) as [c ->].
    exists c. rewrite app_nil_r.
    destruct s as [? ? [? ? ?] ?]. simpl in *. by subst.
Qed.

Lemma jsx_run_moves_drag (ms : list (DOMRect * MouseEvent)) s :
  active (drawingRef s) = true → is_Some (start (drawingRef s)) →
  ∃ c, Jsx.run (moves ms) s
       = Some {| elements := elements s; tool := tool s;
                 drawingRef :=
                   {| active := true; start := start (drawingRef s);
                      path := path (drawingRef s)
                              ++ if bool_decide (tool s = draw)
                                 then positions ms else [] |};
                 ctx := c |}.
Proof.
  intros Ha Hs. destruct (decide (tool s = draw)) as [Hd | Hd].
  - rewrite bool_decide_eq_true_2 by done.
    destruct (jsx_run_moves_draw ms s Ha Hd) as [c ->].
    exists c. by rewrite Hd.
  - rewrite bool_decide_eq_false_2 by done.
    destruct (jsx_run_moves_shape ms s Hd (λ _, Hs)) as [c ->].
    exists c. rewrite app_nil_r.
    destruct s as [? ? [? ? ?] ?]. simpl in *. by subst.
Qed.

(** Press, moves, a click on the [i]-th toolbar button, moves: the drag is
    still active from the same start point, with the new tool. *)
Lemma tsx_run_switch s r0 e0 (ms1 ms2 : list (DOMRect * MouseEvent))
    (i : nat) (tl : CanvasTool.t) :
  tool s ≠ image → Tsx.TOOLS !! i = Some tl →
  ∃ c, Tsx.run (MouseDown r0 e0 :: moves ms1
                ++ ToolClick i :: moves ms2) s
       = Some {| elements := elements s; tool := CanvasTool.id tl;
                 drawingRef :=
                   {| active := true; start := Some (getPos r0 e0);
                      path :=
                        ([getPos r0 e0]
                         ++ if bool_decide (tool s = draw)
                            then positions ms1 else [])
                        ++ if bool_decide (CanvasTool.id tl = draw)
                           then positions ms2 else [] |};
                 ctx := c |}.
Proof.
  intros Hi Htl.
  cbn [Tsx.run Tsx.handle Tsx.onMouseDown mbind option_bind].
  rewrite tsx_run_app.
  match goal with
  | |- context [Tsx.run (moves ms1) ?s1] =>
      destruct (tsx_run_moves_drag ms1 s1) as [c1 ->]; [done | done |]
  end.
  cbn [mbind option_bind Tsx.run Tsx.handle].
  unfold Tsx.onToolClick. rewrite Htl.
  cbn [Tsx.setTool mbind option_bind].
  match goal with
  | |- context [Tsx.run (moves ms2) ?s2] =>
      destruct (tsx_run_moves_drag ms2 s2) as [c2 ->];
        [done | simpl; by eapply tsx_toolbar_ids |]
  end.
  by exists c2.
Qed.

Lemma jsx_run_switch s r0 e0 (ms1 ms2 : list (DOMRect * MouseEvent))
    (i : nat) (t : ToolId) :
  Jsx.TOOLS !! i = Some t →
  ∃ c, Jsx.run (MouseDown r0 e0 :: moves ms1
                ++ ToolClick i :: moves ms2) s
       = Some {| elements := elements s; tool := t;
                 drawingRef :=
                   {| active := true; start := Some (getPos r0 e0);
                      path :=
                        ([getPos r0 e0]
                         ++ if bool_decide (tool s = draw)
                            then positions ms1 else [])
                        ++ if bool_decide (t = draw)
                           then positions ms2 else [] |};
                 ctx := c |}.
Proof.
  intros Ht.
  cbn [Jsx.run Jsx.handle Jsx.onMouseDown mbind option_bind].
  rewrite jsx_run_app.
  match goal with
  | |- context [Jsx.run (moves ms1) ?s1] =>
      destruct (jsx_run_moves_drag ms1 s1) as [c1 ->];
        [done | by eexists |]
  end.
  cbn [mbind option_bind Jsx.run Jsx.handle].
  unfold Jsx.onToolClick. rewrite Ht.
  cbn [Jsx.setTool mbind option_bind].
  match goal with
  | |- context [Jsx.run (moves ms2) ?s2] =>
      destruct (jsx_run_moves_drag ms2 s2) as [c2 ->];
        [done | by eexists |]
  end.
  by exists c2.
Qed.

End ToolSwitch.

(** X14. The tool is read at each event, not at the press. If the [i]-th
    toolbar button is clicked during a drag, the release commits what the
    new tool builds from the original press position: a shape tool its
    element from press to release, whatever was selected before; the
    freehand tool a path made of the press position, the moves recorded
    while the freehand tool was selected (before and after the click), and
    the release position. *)
Theorem X14_tool_switch_during_drag (s : State) (r0 r1 : DOMRect)
    (e0 e1 : MouseEvent) (ms1 ms2 : list (DOMRect * MouseEvent))
    (i : nat) (tl : CanvasTool.t) :
  tool s ≠ image → Tsx.TOOLS !! i = Some tl →
  let evs := MouseDown r0 e0 :: moves ms1
             ++ ToolClick i :: moves ms2 ++ [MouseUp r1 e1] in
  let committed :=
    if bool_decide (CanvasTool.id tl = draw)
    then Some (DrawEl (getPos r0 e0
                       :: (if bool_decide (tool s = draw)
                           then positions ms1 else [])
                       ++ positions ms2 ++ [getPos r1 e1]))
    else CanvasTool.makeElement tl (getPos r0 e0) (getPos r1 e1) in
  ∃ el, committed = Some el
        ∧ elements <$> Tsx.run evs s = Some (elements s ++ [el])
        ∧ elements <$> Jsx.run evs s = Some (elements s ++ [el]).
Proof.
  intros Hi Htl evs committed.
  assert (Hj : Jsx.TOOLS !! i = Some (CanvasTool.id tl)).
  { do 4 (destruct i as [| i]; [by injection Htl as <- |]). done. }
  assert (Hnimg : CanvasTool.id tl ≠ image) by (by eapply tsx_toolbar_ids).
  assert (Hevs : evs = (MouseDown r0 e0 :: moves ms1
                        ++ ToolClick i :: moves ms2) ++ [MouseUp r1 e1]).
  { unfold evs. simpl. by rewrite <- app_assoc. }
  rewrite Hevs, tsx_run_app, jsx_run_app.
  destruct (tsx_run_switch s r0 e0 ms1 ms2 i tl Hi Htl) as [c ->].
  destruct (jsx_run_switch s r0 e0 ms1 ms2 i _ Hj) as [c' ->].
  cbn [mbind option_bind Tsx.run Jsx.run Tsx.handle Jsx.handle].
  unfold committed.
  destruct (decide (CanvasTool.id tl = draw)) as [Hd | Hd].
  - rewrite !bool_decide_eq_true_2 by done.
    eexists. split; [reflexivity |].
    match goal with
    | |- context [Tsx.onMouseUp r1 e1 ?s2] =>
        destruct (tsx_onMouseUp_draw r1 e1 s2) as [c2 ->]; [done | done |]
    end.
    match goal with
    | |- context [Jsx.onMouseUp r1 e1 ?s2] =>
        destruct (jsx_onMouseUp_draw r1 e1 s2) as [c2' ->]; [done | done |]
    end.
    simpl. by rewrite <- !app_assoc.
  - rewrite !bool_decide_eq_false_2 by done.
    destruct (tsx_shape_tool (CanvasTool.id tl) Hd Hnimg)
      as (tl' & Hl' & Hmk).
    assert (tl' = tl) as ->.
    { rewrite tool_map_lookup in Hl'.
      do 4 (destruct i as [| i];
            [injection Htl as <-; by injection Hl' as <- |]).
      done. }
    destruct (Hmk (getPos r0 e0) (getPos r1 e1)) as (el & Hel & _).
    assert (Hjm : Jsx.makeShapeElement (CanvasTool.id tl)
                    (Some (getPos r0 e0)) (getPos r1 e1) = Some (Some el)).
    { by rewrite (tsx_jsx_makeElement _ tl), Hel. }
    exists el. split; [done |].
    match goal with
    | |- context [Tsx.onMouseUp r1 e1 ?s2] =>
        destruct (tsx_onMouseUp_shape r1 e1 s2 (getPos r0 e0) tl el)
          as [c2 ->]; try done
    end.
    match goal with
    | |- context [Jsx.onMouseUp r1 e1 ?s2] =>
        destruct (jsx_onMouseUp_shape r1 e1 s2 (getPos r0 e0) el)
          as [c2' ->]; done
    end.
Qed.

Lemma X14_tool_switch_during_drag_witness :
  ∃ el, elements <$> Tsx.run (MouseDown origin (at_ 1 1)
                              :: moves [(origin, at_ 2 2)]
                              ++ ToolClick 3
                              :: moves [(origin, at_ 3 3)]
                              ++ [MouseUp origin (at_ 4 4)]) initial
        = Some (elements initial ++ [el])
        ∧ el = DrawEl (getPos origin (at_ 1 1)
                       :: [] ++ positions [(origin, at_ 3 3)]
                       ++ [getPos origin (at_ 4 4)]).
Proof.
  assert (Hi : tool initial ≠ image) by discriminate.
  destruct (X14_tool_switch_during_drag initial origin origin
              (at_ 1 1) (at_ 4 4) [(origin, at_ 2 2)] [(origin, at_ 3 3)]
              3 Tsx.FreehandTool Hi eq_refl)
    as (el & Hel & Htsx & _).
  exists el. split; [exact Htsx |].
  injection Hel as <-. reflexivity.
Defined.

(** * The tool registry and the toolbar *)

(** X15. [TOOL_MAP] is the registry of the toolbar tools by id: looking up
    [t] yields [tl] exactly when [tl] is one of [TOOLS] and [t] is its id.
    The image tool, although defined with id [image], is not in it. *)
Theorem X15_tool_map_is_tools_by_id (t : ToolId) (tl : CanvasTool.t) :
  (Tsx.TOOL_MAP !! t = Some tl ↔ tl ∈ Tsx.TOOLS ∧ CanvasTool.id tl = t)
  ∧ CanvasTool.id Tsx.ImageTool = image
  ∧ Tsx.TOOL_MAP !! image = None.
Proof.
  split_and!; [| done | by rewrite tool_map_lookup].
  rewrite tool_map_lookup. split.
  - intros H. destruct t; try done; injection H as <-;
      (split; [| done]); unfold Tsx.TOOLS;
      [left | right; left | right; right; left
       | right; right; right; left].
  - intros [Hin <-]. unfold Tsx.TOOLS in Hin.
    repeat (apply elem_of_cons in Hin as [-> | Hin]; [done |]).
    by apply elem_of_nil in Hin.
Qed.

Section Toolbar.

Lemma toolbar_of_tool (s : State) :
  tool s ≠ image →
  canvas_cursor s = Some "crosshair"
  ∧ (tsx_toolbar s).*2
    = <[ToolId_to_nat (tool s) := true]> (replicate 4 false)
  ∧ (jsx_toolbar s).*2
    = <[ToolId_to_nat (tool s) := true]> (replicate 4 false).
Proof.
  intros Hi. unfold canvas_cursor, tsx_toolbar, jsx_toolbar.
  rewrite tool_map_lookup. by destruct (tool s).
Qed.

Lemma jsx_reachable_tsx (s : State) : Jsx.reachable s → Tsx.reachable s.
Proof.
  intros [evs H]. exists evs. rewrite tsx_jsx_mount. simpl.
  by rewrite tsx_jsx_run by apply jsx_mount_inv.
Qed.

End Toolbar.

(** X16. What [Canvas] renders from a reachable state: the cursor style
    [activeTool.cursor] is defined and is always [crosshair]; the toolbar
    has the four buttons rect, circle, line, draw in that order, and
    exactly one of them, the one of the selected tool, is marked active. *)
Theorem X16_cursor_and_toolbar :
  (∀ s, (tsx_toolbar s).*1 = ["rect"; "circle"; "line"; "draw"]%string
        ∧ (jsx_toolbar s).*1 = [rect; circle; line; draw])
  ∧ (∀ s, Tsx.reachable s →
          canvas_cursor s = Some "crosshair"
          ∧ (ToolId_to_nat (tool s) < 4)%nat
          ∧ (tsx_toolbar s).*2
            = <[ToolId_to_nat (tool s) := true]> (replicate 4 false))
  ∧ (∀ s, Jsx.reachable s →
          (ToolId_to_nat (tool s) < 4)%nat
          ∧ (jsx_toolbar s).*2
            = <[ToolId_to_nat (tool s) := true]> (replicate 4 false)).
Proof.
  assert (Hlt : ∀ t, t ≠ image → (ToolId_to_nat t < 4)%nat).
  { intros t Ht. destruct t; try done; simpl; lia. }
  split_and!; [done | |].
  - intros s Hreach.
    destruct (tsx_reachable_inv s Hreach) as (Hi & _).
    destruct (toolbar_of_tool s Hi) as (Hc & Ht & _). auto.
  - intros s Hreach.
    destruct (jsx_reachable_inv s Hreach) as (Hi & _).
    destruct (toolbar_of_tool s Hi) as (_ & _ & Hj). auto.
Qed.

Lemma X16_cursor_and_toolbar_witness :
  ∃ s, Tsx.reachable s
       ∧ canvas_cursor s = Some "crosshair"
       ∧ (tsx_toolbar s).*2 = [false; false; true; false].
Proof.
  assert (Hrun : ∃ s, Tsx.mount ≫= Tsx.run [ToolClick 2] = Some s
                      ∧ tool s = line).
  { eexists. split; [vm_compute; reflexivity | reflexivity]. }
  destruct Hrun as (s & Hs & Ht).
  assert (Hreach : Tsx.reachable s) by (eexists; exact Hs).
  destruct X16_cursor_and_toolbar as (_ & Htsx & _).
  destruct (Htsx s Hreach) as (Hc & _ & Hb).
  exists s. split_and!; [exact Hreach | exact Hc |].
  rewrite Hb, Ht. reflexivity.
Defined.

(** * Image loads between other events *)

(** X17. An image may finish loading at any moment, also in the middle of
    a drag. Its element is appended at that moment and nothing else
    changes: the events that follow (a clear apart) are handled as without
    the load, leave the same tool and drag record, and commit the same
    elements, after the image. *)
Theorem X17_image_load_between_events (img : HTMLImageElement)
    (evs1 evs2 : list Event) (s s1 s2 : State) :
  ClearClick ∉ evs2 →
  (Tsx.run evs1 s = Some s1 → Tsx.run evs2 s1 = Some s2 →
   ∃ t2 w h d2,
     Tsx.run (evs1 ++ ImageLoad img :: evs2) s = Some t2
     ∧ tool t2 = tool s2 ∧ drawingRef t2 = drawingRef s2
     ∧ elements s2 = elements s1 ++ d2
     ∧ elements t2
       = elements s1 ++ ImageEl img (of_Z 50) (of_Z 50) w h :: d2)
  ∧ (Jsx.run evs1 s = Some s1 → Jsx.run evs2 s1 = Some s2 →
     ∃ t2 w h d2,
       Jsx.run (evs1 ++ ImageLoad img :: evs2) s = Some t2
       ∧ tool t2 = tool s2 ∧ drawingRef t2 = drawingRef s2
       ∧ elements s2 = elements s1 ++ d2
       ∧ elements t2
         = elements s1 ++ ImageEl img (of_Z 50) (of_Z 50) w h :: d2).
Proof.
  intros Hnc. split; intros H1 H2.
  - rewrite tsx_run_app, H1. cbn [mbind option_bind Tsx.run Tsx.handle].
    unfold Tsx.onload.
    match goal with
    | |- context [Tsx.setElements ?f s1] =>
        destruct (tsx_setElements_Some f s1) as [c ->]
    end.
    cbn [mbind option_bind].
    match goal with
    | |- context [Tsx.run evs2 ?t1] =>
        destruct (tsx_run_document_independent evs2 s1 t1 s2 Hnc
                    eq_refl eq_refl H2)
          as (t2 & d2 & Ht2 & Htool & Hdrag & Hels & Helt)
    end.
    exists t2. eexists _, _, d2. split_and!; try done.
    rewrite Helt. simpl. by rewrite <- app_assoc.
  - rewrite jsx_run_app, H1. cbn [mbind option_bind Jsx.run Jsx.handle].
    unfold Jsx.onload. cbn [mbind option_bind].
    match goal with
    | |- context [Jsx.run evs2 ?t1] =>
        destruct (jsx_run_document_independent evs2 s1 t1 s2 Hnc
                    eq_refl eq_refl H2)
          as (t2 & d2 & Ht2 & Htool & Hdrag & Hels & Helt)
    end.
    exists t2. eexists _, _, d2. split_and!; try done.
    rewrite Helt. simpl. by rewrite <- app_assoc.
Qed.

Lemma X17_image_load_between_events_witness :
  ∃ t2 w h,
    Jsx.run ([MouseDown origin (at_ 1 1)]
             ++ ImageLoad {| src := "blob:a"; width := 40; height := 30 |}
             :: [MouseUp origin (at_ 3 4)]) initial = Some t2
    ∧ ∃ d2, elements t2
            = [] ++ ImageEl {| src := "blob:a"; width := 40; height := 30 |}
                            (of_Z 50) (of_Z 50) w h :: d2
            ∧ length d2 = 1%nat.
Proof.
  assert (Hnc : ClearClick ∉ [MouseUp origin (at_ 3 4)]).
  { intros H. apply elem_of_cons in H as [H | H]; [discriminate |].
    by apply elem_of_nil in H. }
  assert (Hrun : ∃ s1 s2,
    Jsx.run [MouseDown origin (at_ 1 1)] initial = Some s1
    ∧ Jsx.run [MouseUp origin (at_ 3 4)] s1 = Some s2
    ∧ elements s1 = [] ∧ length (elements s2) = 1%nat).
  { eexists _, _. split; [reflexivity |]. split; [vm_compute; reflexivity |].
    split; reflexivity. }
  destruct Hrun as (s1 & s2 & H1 & H2 & Hels1 & Hlen2).
  destruct (proj2 (X17_image_load_between_events
                     {| src := "blob:a"; width := 40; height := 30 |}
                     [MouseDown origin (at_ 1 1)] [MouseUp origin (at_ 3 4)]
                     initial s1 s2 Hnc) H1 H2)
    as (t2 & w & h & d2 & Ht2 & _ & _ & Hs2 & Helt).
  exists t2, w, h. split; [exact Ht2 |]. exists d2.
  rewrite Hels1 in Helt, Hs2. split; [exact Helt |].
  rewrite Hs2 in Hlen2. exact Hlen2.
Defined.

(** * The canvas follows the document *)

Section CanvasFollows.

Implicit Types (s : State) (r : DOMRect) (e : MouseEvent).

(** A state that [redraw] returned shows its document. *)
Lemma tsx_redraw_shows (draft : option CanvasElement) s s' :
  Tsx.redraw draft s = Some s' → shows_document s'.
Proof.
  intros H.
  destruct (tsx_redraw_full draft s) as (s1 & E & Hel & _ & _ & _ & _ & Hv).
  rewrite E in H. injection H as <-.
  exists draft. by rewrite Hv, Hel.
Qed.

Lemma shows_document_same s s' :
  elements s' = elements s → ctx s' = ctx s →
  shows_document s → shows_document s'.
Proof. intros Hel Hc [d Hd]. exists d. by rewrite Hel, Hc. Qed.

Lemma tsx_handle_shows (ev : Event) s s' :
  shows_document s → Tsx.handle ev s = Some s' → shows_document s'.
Proof.
  intros Hs H.
  assert (Hup : ∀ r e, Tsx.onMouseUp r e s = Some s' → shows_document s').
  { clear H. intros r e H. unfold Tsx.onMouseUp, Tsx.setElements in H.
    destruct (active (drawingRef s)); cbn [negb] in H;
      [| by injection H as <-].
    destruct (decide (tool s = draw)); [by eapply tsx_redraw_shows |].
    cbn [drawingRef with_drawingRef set_active start] in H.
    destruct (start (drawingRef s));
      [| injection H as <-; by eapply shows_document_same].
    destruct (Tsx.TOOL_MAP !! tool s) as [tl |]; [| done].
    cbn [mbind option_bind] in H.
    destruct (CanvasTool.makeElement tl p (getPos r e));
      [by eapply tsx_redraw_shows |].
    injection H as <-. by eapply shows_document_same. }
  destruct ev as [r e | r e | r e | r e | i | | img]; cbn [Tsx.handle] in H;
    try by eapply Hup.
  - injection H as <-. by eapply shows_document_same.
  - unfold Tsx.onMouseMove in H.
    destruct (active (drawingRef s)); cbn [negb] in H;
      [| by injection H as <-].
    destruct (decide (tool s = draw)); [by eapply tsx_redraw_shows |].
    destruct (start (drawingRef s)); [| by injection H as <-].
    destruct (Tsx.TOOL_MAP !! tool s) as [tl |]; [| done].
    by eapply tsx_redraw_shows.
  - unfold Tsx.onToolClick, Tsx.setTool in H.
    destruct (Tsx.TOOLS !! i); injection H as <-;
      [by eapply shows_document_same | done].
  - by eapply tsx_redraw_shows.
  - by eapply tsx_redraw_shows.
Qed.

Lemma tsx_run_shows (evs : list Event) s s' :
  shows_document s → Tsx.run evs s = Some s' → shows_document s'.
Proof.
  revert s. induction evs as [| ev evs IH]; intros s Hs H.
  - by injection H as <-.
  - simpl in H. destruct (Tsx.handle ev s) as [s1 |] eqn:Hs1; [| done].
    eapply IH; [| exact H]. by eapply tsx_handle_shows.
Qed.

Lemma tsx_reachable_shows s : Tsx.reachable s → shows_document s.
Proof.
  intros [evs H].
  destruct Tsx.mount as [s0 |] eqn:Hm; [| done]. simpl in H.
  eapply tsx_run_shows; [| exact H].
  by eapply tsx_redraw_shows.
Qed.

End CanvasFollows.

(** X18. In every reachable state of either revision the canvas shows the
    committed document, every element in document order, with at most one
    draft painted on top and nothing else; right after a commit, an image
    load or a clear it shows the new document alone. *)
Theorem X18_canvas_shows_the_document :
  (∀ s, Tsx.reachable s → shows_document s)
  ∧ (∀ s, Jsx.reachable s → shows_document s)
  ∧ (∀ s s' f, Tsx.setElements f s = Some s' →
               elements s' = f (elements s)
               ∧ visible (ctx s') = concat (painted <$> elements s'))
  ∧ (∀ s f, elements (Jsx.setElements f s) = f (elements s)
            ∧ visible (ctx (Jsx.setElements f s))
              = concat (painted <$> f (elements s))).
Proof.
  split_and!.
  - apply tsx_reachable_shows.
  - intros s Hreach. by apply tsx_reachable_shows, jsx_reachable_tsx.
  - intros s s' f H. unfold Tsx.setElements in H.
    destruct (tsx_redraw_full None (with_elements s (f (elements s))))
      as (s1 & E & Hel & _ & _ & _ & _ & Hv).
    rewrite E in H. injection H as <-.
    split; [done |]. rewrite Hv, Hel. simpl. by rewrite app_nil_r.
  - intros s f. split; [done |].
    unfold Jsx.setElements. rewrite jsx_redraw_visible. simpl.
    by rewrite app_nil_r.
Qed.

Lemma X18_canvas_shows_the_document_witness :
  ∃ s, Jsx.reachable s ∧ length (elements s) = 1%nat ∧ shows_document s.
Proof.
  assert (Hrun : ∃ s, Jsx.run [MouseDown origin (at_ 1 1);
                               MouseUp origin (at_ 4 5)] Jsx.mount = Some s
                      ∧ length (elements s) = 1%nat).
  { eexists. split; [vm_compute; reflexivity | reflexivity]. }
  destruct Hrun as (s & Hs & Hlen).
  assert (Hreach : Jsx.reachable s) by (eexists; exact Hs).
  exists s. split_and!; [exact Hreach | exact Hlen |].
  exact (proj1 (proj2 X18_canvas_shows_the_document) s Hreach).
Defined.

(** * Rendering one element *)

Section ContextStyle.

Implicit Types (s : State) (r : DOMRect) (e : MouseEvent).





End ContextStyle.

